(** * reptimer: the interval timer engine (src/utils/timer.ts)

    A shallow embedding of [TimerEngine] together with the small part of the
    host it talks to: the wall clock read through [Date.now()], the frame
    scheduler behind [requestAnimationFrame] / [cancelAnimationFrame], and
    the three callbacks handed to the constructor.

    Numbers.  [Date.now()] is an integer number of milliseconds and the data
    model gives every interval an integer number of seconds; the quantities
    the engine computes are modelled in [Z].  [Math.floor (x / 1000)] is
    [x / 1000] ([Z.div] rounds down for a positive divisor) and
    [Math.ceil (x / 1000)] is [ceil1000 x].  A JavaScript number holds an
    integer exactly only below 2^53 in absolute value: the products
    [duration * 1000] and their sums in the model are those of the source
    as long as the durations are non-negative and the routine's total
    duration in milliseconds stays below 2^53 ([exactDurations]); beyond
    that the source rounds and the model does not.  Every statement about a
    reported duration or a duration-derived anchor assumes that bound.

    Time.  A method of the engine runs synchronously; the clock is a field
    of the host that only an explicit [Advance] action changes, so all the
    [Date.now()] reads of one call see the same instant.

    Beside the engine the file embeds the pure helpers of
    src/utils/format.ts that read and write times and colours, and
    [validateRoutine] of src/utils/storage.ts, which guards what is loaded
    into the engine. *)

From Stdlib Require Import String Ascii DecimalString DecimalNat.
From Stdlib Require Import ZArith List Bool Lia PeanoNat Sorted.
Import ListNotations.
Open Scope Z_scope.

(** ** src/types.ts *)

Inductive IntervalType := work | rest | warmup | finisher | cooldown.

Record Interval := mkInterval {
  label : string;
  duration : Z;              (* seconds *)
  type : IntervalType;
  color : option string      (* hex color override *)
}.

Definition Routine := list Interval.

Module TimerState.
Record t := mk {
  isRunning : bool;
  isPaused : bool;
  currentIntervalIndex : nat;
  timeRemaining : Z;       (* seconds *)
  totalElapsed : Z;        (* seconds *)
  totalDuration : Z        (* seconds *)
}.
End TimerState.

(** ** The host: callbacks, clock and frame scheduler *)

(** One constructor per callback of the constructor's argument list. *)
Inductive Notification :=
| OnTick (state : TimerState.t)
| OnIntervalChange (intervalIndex : nat)
| OnComplete.

(** The private and public fields of the class. *)
Record Engine := mkEngine {
  startTime : Z;
  pausedTime : Z;
  pauseStartTime : Z;
  animationFrameId : option positive;   (* number | null; handles are > 0 *)
  routine : Routine;
  currentIntervalIndex : nat;
  isRunning : bool;
  isPaused : bool
}.

Record World := mkWorld {
  engine : Engine;
  clock : Z;                        (* what Date.now() returns *)
  nextFrame : positive;             (* next handle requestAnimationFrame gives *)
  pendingFrames : list positive;    (* scheduled callbacks not yet run *)
  log : list Notification           (* callbacks invoked so far, oldest first *)
}.

(** A state monad over the world. *)
Definition M (A : Type) : Type := World -> A * World.

Definition ret {A} (a : A) : M A := fun w => (a, w).
Definition bind {A B} (m : M A) (k : A -> M B) : M B :=
  fun w => let (a, w') := m w in k a w'.
Definition exec {A} (m : M A) (w : World) : World := snd (m w).

Declare Scope engine_scope.
Delimit Scope engine_scope with engine.
Notation "x <- m ;; k" := (bind m (fun x => k))
  (at level 61, m at next level, right associativity) : engine_scope.
Notation "m ;; k" := (bind m (fun _ => k))
  (at level 61, right associativity) : engine_scope.
Open Scope engine_scope.

Definition this : M Engine := fun w => (engine w, w).

Definition assign (f : Engine -> Engine) : M unit :=
  fun w => (tt, mkWorld (f (engine w)) (clock w) (nextFrame w)
                        (pendingFrames w) (log w)).

Definition set_startTime (v : Z) (e : Engine) : Engine :=
  mkEngine v (pausedTime e) (pauseStartTime e) (animationFrameId e)
           (routine e) (currentIntervalIndex e) (isRunning e) (isPaused e).
Definition set_pausedTime (v : Z) (e : Engine) : Engine :=
  mkEngine (startTime e) v (pauseStartTime e) (animationFrameId e)
           (routine e) (currentIntervalIndex e) (isRunning e) (isPaused e).
Definition set_pauseStartTime (v : Z) (e : Engine) : Engine :=
  mkEngine (startTime e) (pausedTime e) v (animationFrameId e)
           (routine e) (currentIntervalIndex e) (isRunning e) (isPaused e).
Definition set_animationFrameId (v : option positive) (e : Engine) : Engine :=
  mkEngine (startTime e) (pausedTime e) (pauseStartTime e) v
           (routine e) (currentIntervalIndex e) (isRunning e) (isPaused e).
Definition set_routine (v : Routine) (e : Engine) : Engine :=
  mkEngine (startTime e) (pausedTime e) (pauseStartTime e) (animationFrameId e)
           v (currentIntervalIndex e) (isRunning e) (isPaused e).
Definition set_currentIntervalIndex (v : nat) (e : Engine) : Engine :=
  mkEngine (startTime e) (pausedTime e) (pauseStartTime e) (animationFrameId e)
           (routine e) v (isRunning e) (isPaused e).
Definition set_isRunning (v : bool) (e : Engine) : Engine :=
  mkEngine (startTime e) (pausedTime e) (pauseStartTime e) (animationFrameId e)
           (routine e) (currentIntervalIndex e) v (isPaused e).
Definition set_isPaused (v : bool) (e : Engine) : Engine :=
  mkEngine (startTime e) (pausedTime e) (pauseStartTime e) (animationFrameId e)
           (routine e) (currentIntervalIndex e) (isRunning e) v.

Definition Date_now : M Z := fun w => (clock w, w).

Definition emit (n : Notification) : M unit :=
  fun w => (tt, mkWorld (engine w) (clock w) (nextFrame w)
                        (pendingFrames w) (log w ++ [n])).

Definition onTick (state : TimerState.t) : M unit := emit (OnTick state).
Definition onIntervalChange (intervalIndex : nat) : M unit :=
  emit (OnIntervalChange intervalIndex).
Definition onComplete : M unit := emit OnComplete.

(** [requestAnimationFrame(this.tick)]: the only callback ever registered is
    [tick], so a pending frame is just its handle. *)
Definition requestAnimationFrame : M positive :=
  fun w => (nextFrame w,
            mkWorld (engine w) (clock w) (Pos.succ (nextFrame w))
                    (pendingFrames w ++ [nextFrame w]) (log w)).

Definition cancelAnimationFrame (id : positive) : M unit :=
  fun w => (tt, mkWorld (engine w) (clock w) (nextFrame w)
                        (filter (fun h => negb (Pos.eqb h id)) (pendingFrames w))
                        (log w)).

(** ** src/utils/timer.ts *)

Module TimerEngine.

(** [Math.ceil (x / 1000)] *)
Definition ceil1000 (x : Z) : Z := - ((- x) / 1000).

(** [xs.reduce((sum, interval) => sum + interval.duration * 1000, 0)] *)
Definition sumDurationsMs (xs : Routine) : Z :=
  fold_left (fun sum interval => sum + duration interval * 1000) xs 0.

(** [routine.slice(0, n)] *)
Definition slice0 (r : Routine) (n : nat) : Routine := firstn n r.

(** The state of a freshly constructed engine (field initialisers). *)
Definition new : Engine :=
  mkEngine 0 0 0 None [] 0%nat false false.

Definition getCurrentInterval (e : Engine) : option Interval :=
  if (0 <? length (routine e))%nat
  then nth_error (routine e) (currentIntervalIndex e)
  else None.

Definition getNextInterval (e : Engine) : option Interval :=
  let nextIndex := (currentIntervalIndex e + 1)%nat in
  if (nextIndex <? length (routine e))%nat
  then nth_error (routine e) nextIndex
  else None.

(** The value [updateState] builds before handing it to [onTick]. *)
Definition computeState (now : Z) (e : Engine) : TimerState.t :=
  let totalElapsed :=
    if isRunning e then now - startTime e - pausedTime e
    else if isPaused e then pauseStartTime e - startTime e - pausedTime e
    else 0 in
  let elapsedForPreviousIntervals :=
    sumDurationsMs (slice0 (routine e) (currentIntervalIndex e)) in
  let currentIntervalElapsed :=
    Z.max 0 (totalElapsed - elapsedForPreviousIntervals) in
  let currentInterval := getCurrentInterval e in
  let currentIntervalDurationMs :=
    match currentInterval with
    | Some i => duration i * 1000
    | None => 0
    end in
  let timeRemainingMs :=
    Z.max 0 (currentIntervalDurationMs - currentIntervalElapsed) in
  let totalDurationMs := sumDurationsMs (routine e) in
  TimerState.mk (isRunning e) (isPaused e) (currentIntervalIndex e)
                (ceil1000 timeRemainingMs)
                (totalElapsed / 1000)
                (totalDurationMs / 1000).

Definition updateState : M unit :=
  now <- Date_now ;;
  e <- this ;;
  onTick (computeState now e).

(** The [for] loop of [tick]: [rest] is what is left of the routine from
    position [i] on, [elapsedMs] and [intervalIndex] are the loop's two
    accumulators; the result is [intervalIndex] when the loop is left. *)
Fixpoint tickLoop (totalElapsed : Z) (rest : Routine) (i : nat)
         (elapsedMs : Z) (intervalIndex : nat) : nat :=
  match rest with
  | [] => intervalIndex
  | interval :: rest' =>
      let intervalDurationMs := duration interval * 1000 in
      if totalElapsed <? elapsedMs + intervalDurationMs
      then i
      else tickLoop totalElapsed rest' (S i)
                    (elapsedMs + intervalDurationMs) (S i)
  end.

Definition deriveIntervalIndex (r : Routine) (totalElapsed : Z) : nat :=
  tickLoop totalElapsed r 0%nat 0 0%nat.

Definition tick : M unit :=
  e <- this ;;
  if negb (isRunning e) then ret tt else
  now <- Date_now ;;
  let totalElapsed := now - startTime e - pausedTime e in
  let intervalIndex := deriveIntervalIndex (routine e) totalElapsed in
  (if negb (intervalIndex =? currentIntervalIndex e)%nat
      && (intervalIndex <? length (routine e))%nat
   then assign (set_currentIntervalIndex intervalIndex) ;;
        onIntervalChange intervalIndex
   else ret tt) ;;
  if (length (routine e) <=? intervalIndex)%nat
  then assign (set_isRunning false) ;;
       onComplete
  else updateState ;;
       id <- requestAnimationFrame ;;
       assign (set_animationFrameId (Some id)).

(** The block shared by [pause] and [reset]:
    [if (this.animationFrameId) { cancelAnimationFrame(...); ... = null }]. *)
Definition cancelPending : M unit :=
  e <- this ;;
  match animationFrameId e with
  | Some id => cancelAnimationFrame id ;;
               assign (set_animationFrameId None)
  | None => ret tt
  end.

Definition reset : M unit :=
  assign (set_isRunning false) ;;
  assign (set_isPaused false) ;;
  assign (set_currentIntervalIndex 0%nat) ;;
  assign (set_startTime 0) ;;
  assign (set_pausedTime 0) ;;
  assign (set_pauseStartTime 0) ;;
  cancelPending ;;
  updateState.

Definition setRoutine (r : Routine) : M unit :=
  assign (set_routine r) ;;
  reset ;;
  updateState.

Definition start : M unit :=
  e <- this ;;
  if (length (routine e) =? 0)%nat then ret tt else
  (if isPaused e
   then now <- Date_now ;;
        assign (set_pausedTime (pausedTime e + (now - pauseStartTime e))) ;;
        assign (set_isPaused false)
   else now <- Date_now ;;
        assign (set_startTime now) ;;
        assign (set_pausedTime 0)) ;;
  assign (set_isRunning true) ;;
  tick.

Definition pause : M unit :=
  e <- this ;;
  if negb (isRunning e) then ret tt else
  assign (set_isPaused true) ;;
  assign (set_isRunning false) ;;
  now <- Date_now ;;
  assign (set_pauseStartTime now) ;;
  cancelPending ;;
  updateState.

Definition adjustTimerForNewInterval : M unit :=
  e <- this ;;
  let elapsedForPreviousIntervals :=
    sumDurationsMs (slice0 (routine e) (currentIntervalIndex e)) in
  now <- Date_now ;;
  assign (set_startTime (now - elapsedForPreviousIntervals)) ;;
  assign (set_pausedTime 0) ;;
  updateState.

Definition nextInterval : M unit :=
  e <- this ;;
  if Z.of_nat (currentIntervalIndex e) <? Z.of_nat (length (routine e)) - 1
  then assign (set_currentIntervalIndex (currentIntervalIndex e + 1)%nat) ;;
       adjustTimerForNewInterval ;;
       e' <- this ;;
       onIntervalChange (currentIntervalIndex e')
  else ret tt.

Definition previousInterval : M unit :=
  e <- this ;;
  if (0 <? currentIntervalIndex e)%nat
  then assign (set_currentIntervalIndex (currentIntervalIndex e - 1)%nat) ;;
       adjustTimerForNewInterval ;;
       e' <- this ;;
       onIntervalChange (currentIntervalIndex e')
  else ret tt.

Definition destroy : M unit :=
  e <- this ;;
  match animationFrameId e with
  | Some id => cancelAnimationFrame id
  | None => ret tt
  end.

End TimerEngine.

(** ** src/utils/format.ts

    Strings are sequences of code units below 256 (Rocq's [string]); the
    numbers handed to these functions are integers, in [Z].  The model of a
    number as a decimal string, of [Math.floor (x / 60)] as [x / 60] and of
    [parseInt] as an exact integer is the behaviour of the JavaScript
    functions for integers below 10^15 in absolute value, which is why the
    statements about them carry that bound. *)

Module Format.

(** [`${n}`] and [n.toString()] for an integer [n]. *)
Definition numberToString (n : Z) : string :=
  String.append
    (if n <? 0 then "-"%string else ""%string)
    (NilEmpty.string_of_uint (Nat.to_uint (Z.to_nat (Z.abs n)))).

(** [s.padStart(2, '0')] *)
Definition padStart2 (s : string) : string :=
  match String.length s with
  | 0%nat => "00"%string
  | 1%nat => String "0" s
  | _ => s
  end.

Definition formatTime (seconds : Z) : string :=
  let mins := Z.abs seconds / 60 in
  let secs := Z.abs seconds mod 60 in
  let sign := if seconds <? 0 then "-"%string else ""%string in
  (sign ++ numberToString mins ++ ":" ++ padStart2 (numberToString secs))%string.

(** White space and line terminators, as [trim] and [parseInt] skip them:
    tab, line feed, vertical tab, form feed, carriage return, space and
    no-break space. *)
Definition isWhiteSpace (c : ascii) : bool :=
  let n := nat_of_ascii c in
  ((9 <=? n) && (n <=? 13) || (n =? 32) || (n =? 160))%nat.

Fixpoint trimStart (s : string) : string :=
  match s with
  | String c s' => if isWhiteSpace c then trimStart s' else s
  | EmptyString => EmptyString
  end.

(** Drops the white space at the end: a character is kept when it is not
    white space or when something is kept after it. *)
Fixpoint trimEnd (s : string) : string :=
  match s with
  | String c s' =>
      match trimEnd s' with
      | EmptyString => if isWhiteSpace c then EmptyString else String c EmptyString
      | kept => String c kept
      end
  | EmptyString => EmptyString
  end.

Definition trim (s : string) : string := trimEnd (trimStart s).

(** [s.includes(':')] *)
Fixpoint includesColon (s : string) : bool :=
  match s with
  | String c s' => Ascii.eqb c ":" || includesColon s'
  | EmptyString => false
  end.

(** [s.split(':')]: the pieces between the colons, [cur] being the piece
    under construction, reversed. *)
Fixpoint splitColon (s : string) (cur : string) : list string :=
  match s with
  | String c s' =>
      if Ascii.eqb c ":" then cur :: splitColon s' EmptyString
      else splitColon s' (cur ++ String c EmptyString)%string
  | EmptyString => [cur]
  end.

Definition isDigit (c : ascii) : bool :=
  let n := nat_of_ascii c in ((48 <=? n) && (n <=? 57))%nat.

(** The longest prefix of decimal digits, read in base ten onto [acc]. *)
Fixpoint readDigits (s : string) (acc : Z) : Z :=
  match s with
  | String c s' =>
      if isDigit c
      then readDigits s' (acc * 10 + Z.of_nat (nat_of_ascii c - 48))
      else acc
  | EmptyString => acc
  end.

(** [parseInt(s, 10)]; [None] is NaN. *)
Definition parseInt (s : string) : option Z :=
  let s := trimStart s in
  let (sign, digits) :=
    match s with
    | String c s' =>
        if Ascii.eqb c "-" then (-1, s')
        else if Ascii.eqb c "+" then (1, s')
        else (1, s)
    | EmptyString => (1, s)
    end in
  match digits with
  | String c _ => if isDigit c then Some (sign * readDigits digits 0) else None
  | EmptyString => None
  end.

(** A returned number or a thrown [Error] with its message. *)
Inductive Parsed :=
| Returns (seconds : Z)
| Throws (message : string).

Definition parseTimeString (timeString : string) : Parsed :=
  let trimmed := trim timeString in
  if includesColon trimmed then
    match splitColon trimmed EmptyString with
    | [minsPart; secsPart] =>
        match parseInt minsPart, parseInt secsPart with
        | Some mins, Some secs =>
            if (mins <? 0) || (secs <? 0) || (60 <=? secs)
            then Throws "Invalid time values"
            else Returns (mins * 60 + secs)
        | _, _ => Throws "Invalid time values"
        end
    | _ => Throws "Invalid time format"
    end
  else
    match parseInt trimmed with
    | Some seconds =>
        if seconds <? 0 then Throws "Invalid seconds value"
        else Returns seconds
    | None => Throws "Invalid seconds value"
    end.

(** [Math.max(min, Math.min(max, value))] *)
Definition clamp (value min max : Z) : Z := Z.max min (Z.min max value).

Definition isHexDigit (c : ascii) : bool :=
  let n := nat_of_ascii c in
  ((48 <=? n) && (n <=? 57) || (65 <=? n) && (n <=? 70)
   || (97 <=? n) && (n <=? 102))%nat.

(** The value of a hexadecimal digit, as [parseInt(_, 16)] reads it. *)
Definition hexValue (c : ascii) : Z :=
  let n := nat_of_ascii c in
  if (n <=? 57)%nat then Z.of_nat (n - 48)
  else if (n <=? 70)%nat then Z.of_nat (n - 55)
  else Z.of_nat (n - 87).

(** [/^#[0-9A-Fa-f]{6}$/.test(hex)] *)
Definition isValidHexColor (hex : string) : bool :=
  match hex with
  | String h (String a (String b (String c (String d (String e
      (String f EmptyString)))))) =>
      Ascii.eqb h "#" && isHexDigit a && isHexDigit b && isHexDigit c
      && isHexDigit d && isHexDigit e && isHexDigit f
  | _ => false
  end.

Record Rgb := mkRgb { r : Z; g : Z; b : Z }.

(** [/^#?([a-f\d]{2})([a-f\d]{2})([a-f\d]{2})$/i.exec(hex)], each group read
    with [parseInt(_, 16)]; [None] is null. *)
Definition hexToRgb (hex : string) : option Rgb :=
  let digits :=
    match hex with
    | String h after => if Ascii.eqb h "#" then after else hex
    | EmptyString => hex
    end in
  match digits with
  | String a (String b (String c (String d (String e
      (String f EmptyString))))) =>
      if isHexDigit a && isHexDigit b && isHexDigit c
         && isHexDigit d && isHexDigit e && isHexDigit f
      then Some (mkRgb (16 * hexValue a + hexValue b)
                       (16 * hexValue c + hexValue d)
                       (16 * hexValue e + hexValue f))
      else None
  | _ => None
  end.

End Format.

(** ** src/utils/storage.ts: [validateRoutine]

    The argument has type [unknown]: any JavaScript value.  A number is
    kept as an integer or, when it is not one (a fraction, an infinity or
    NaN), as no more than whether it is greater than zero. *)

Module Storage.

Inductive JsNumber :=
| Integer (z : Z)
| NotInteger (positive : bool).

#[local] Set Warnings "-register-all".

Inductive JsValue :=
| JsUndefined
| JsNull
| JsBoolean (b : bool)
| JsNum (n : JsNumber)
| JsString (s : string)
| JsArray (items : list JsValue)
| JsObject (props : list (string * JsValue)).

(** [typeof v === 'object'] *)
Definition typeofObject (v : JsValue) : bool :=
  match v with
  | JsNull | JsArray _ | JsObject _ => true
  | _ => false
  end.

Definition isNull (v : JsValue) : bool :=
  match v with JsNull => true | _ => false end.

(** [v.name] for one of the names [label], [duration], [type], [color], on a
    value that is an object and not null: an own property of a plain
    object, nothing on an array. *)
Fixpoint lookup (name : string) (props : list (string * JsValue)) : JsValue :=
  match props with
  | [] => JsUndefined
  | (key, v) :: more => if String.eqb key name then v else lookup name more
  end.

Definition getProperty (v : JsValue) (name : string) : JsValue :=
  match v with
  | JsObject props => lookup name props
  | _ => JsUndefined
  end.

(** [['work', 'rest', 'warmup', 'finisher', 'cooldown'].includes(s)] *)
Definition isIntervalType (s : string) : bool :=
  existsb (String.eqb s) ["work"; "rest"; "warmup"; "finisher"; "cooldown"]%string.

(** The test applied to every element of the array.  For the duration the
    two conjuncts are [duration > 0] and [Number.isInteger(duration)]. *)
Definition validInterval (interval : JsValue) : bool :=
  typeofObject interval
  && negb (isNull interval)
  && match getProperty interval "label" with
     | JsString label => negb (String.eqb (Format.trim label) "")
     | _ => false
     end
  && match getProperty interval "duration" with
     | JsNum (Integer z) => (0 <? z) && true
     | JsNum (NotInteger positive) => positive && false
     | _ => false
     end
  && match getProperty interval "type" with
     | JsString t => isIntervalType t
     | _ => false
     end
  && match getProperty interval "color" with
     | JsUndefined => true
     | JsString color => Format.isValidHexColor color
     | _ => false
     end.

Definition validateRoutine (routine : JsValue) : bool :=
  match routine with
  | JsArray items => forallb validInterval items
  | _ => false
  end.

End Storage.

(** The value read as the [Routine] that [validateRoutine] narrows its type
    to: the fields the engine and the display read from each element. *)
Definition intervalTypeOf (s : string) : option IntervalType :=
  if String.eqb s "work" then Some work
  else if String.eqb s "rest" then Some rest
  else if String.eqb s "warmup" then Some warmup
  else if String.eqb s "finisher" then Some finisher
  else if String.eqb s "cooldown" then Some cooldown
  else None.

Definition asInterval (v : Storage.JsValue) : option Interval :=
  match Storage.getProperty v "label", Storage.getProperty v "duration",
        Storage.getProperty v "type" with
  | Storage.JsString l, Storage.JsNum (Storage.Integer d), Storage.JsString t =>
      match intervalTypeOf t with
      | Some ty =>
          Some (mkInterval l d ty
                           match Storage.getProperty v "color" with
                           | Storage.JsString c => Some c
                           | _ => None
                           end)
      | None => None
      end
  | _, _, _ => None
  end.

Fixpoint asIntervals (items : list Storage.JsValue) : option Routine :=
  match items with
  | [] => Some []
  | v :: more =>
      match asInterval v, asIntervals more with
      | Some i, Some r => Some (i :: r)
      | _, _ => None
      end
  end.

Definition asRoutine (v : Storage.JsValue) : option Routine :=
  match v with
  | Storage.JsArray items => asIntervals items
  | _ => None
  end.

(** What the data model asks of an interval. *)
Definition wellFormedInterval (i : Interval) : Prop :=
  0 < duration i
  /\ Format.trim (label i) <> ""%string
  /\ match color i with
     | Some c => Format.isValidHexColor c = true
     | None => True
     end.

(** ** Driving the engine

    What the owner of an engine and the browser can do to it: call a public
    method, let time pass, or run the oldest scheduled frame callback (the
    browser runs frame callbacks in the order they were requested; a
    cancelled one is no longer in the list). *)

Inductive Action :=
| SetRoutine (r : Routine)
| Start
| Pause
| Reset
| NextInterval
| PreviousInterval
| Destroy
| Advance (dt : Z)
| Frame.

Definition advance (dt : Z) : M unit :=
  fun w => (tt, mkWorld (engine w) (clock w + dt) (nextFrame w)
                        (pendingFrames w) (log w)).

Definition frame : M unit :=
  fun w => match pendingFrames w with
           | [] => (tt, w)
           | _ :: later =>
               TimerEngine.tick
                 (mkWorld (engine w) (clock w) (nextFrame w) later (log w))
           end.

Definition perform (a : Action) : M unit :=
  match a with
  | SetRoutine r => TimerEngine.setRoutine r
  | Start => TimerEngine.start
  | Pause => TimerEngine.pause
  | Reset => TimerEngine.reset
  | NextInterval => TimerEngine.nextInterval
  | PreviousInterval => TimerEngine.previousInterval
  | Destroy => TimerEngine.destroy
  | Advance dt => advance dt
  | Frame => frame
  end.

Definition run (acts : list Action) (w : World) : World :=
  fold_left (fun w a => exec (perform a) w) acts w.

(** [new TimerEngine(onTick, onIntervalChange, onComplete)] at instant [t0]. *)
Definition boot (t0 : Z) : World :=
  mkWorld TimerEngine.new t0 1%positive [] [].

(** The payloads of the interval-changed and of the state notifications of
    a log, in order. *)
Definition intervalChanges (l : list Notification) : list nat :=
  flat_map (fun n => match n with OnIntervalChange i => [i] | _ => [] end) l.

Definition ticks (l : list Notification) : list TimerState.t :=
  flat_map (fun n => match n with OnTick s => [s] | _ => [] end) l.

(** ** The data model of the specification *)

(** Durations are integer seconds; the engine needs them non-negative. *)
Definition valid_routine (r : Routine) : Prop :=
  Forall (fun i => 0 <= duration i) r.

(** Duration in seconds of the interval at position [i] (0 when there is
    none, in particular for the empty routine). *)
Definition durationAt (r : Routine) (i : nat) : Z :=
  match nth_error r i with
  | Some x => duration x
  | None => 0
  end.

(** Sum of the durations, in seconds. *)
Definition totalDurationOf (r : Routine) : Z :=
  fold_right (fun x acc => duration x + acc) 0 r.

(** Routines on which the engine's arithmetic in doubles is exact: with
    non-negative durations, every [duration * 1000] and every partial sum
    the engine forms is at most the total in milliseconds, below 2^53. *)
Definition exactDurations (r : Routine) : Prop :=
  1000 * totalDurationOf r < 2 ^ 53.

(** Milliseconds taken by the intervals before position [i]. *)
Definition cumulativeDurationBefore (r : Routine) (i : nat) : Z :=
  1000 * totalDurationOf (firstn i r).

(** The half-open span of interval [i], in milliseconds. *)
Definition inSpan (r : Routine) (i : nat) (ms : Z) : Prop :=
  cumulativeDurationBefore r i <= ms
  < cumulativeDurationBefore r i + 1000 * durationAt r i.

(** The elapsed time the periodic re-evaluation works from. *)
Definition totalElapsedMs (w : World) : Z :=
  clock w - startTime (engine w) - pausedTime (engine w).

(** ** Auxiliary definitions for the statements and proofs *)

(** The notifications one re-evaluation emits when it stays inside the
    routine: the change of interval, if any, then the state. *)
Definition tickNotes (now : Z) (e : Engine) (i : nat) : list Notification :=
  (if (i =? currentIntervalIndex e)%nat then [] else [OnIntervalChange i])
  ++ [OnTick (TimerEngine.computeState now (set_currentIntervalIndex i e))].

(** Time passing: the clock moves forward and frame callbacks run. *)
Definition passing (a : Action) : Prop :=
  match a with
  | Advance dt => 0 <= dt
  | Frame => True
  | _ => False
  end.

(** The milliseconds by which a list of actions moves the clock. *)
Definition elapse (acts : list Action) : Z :=
  fold_right (fun a acc => match a with Advance dt => dt + acc | _ => acc end)
             0 acts.

(** Same timing anchors, routine and pause flag. *)
Definition sameAnchors (e e' : Engine) : Prop :=
  startTime e' = startTime e
  /\ pausedTime e' = pausedTime e
  /\ pauseStartTime e' = pauseStartTime e
  /\ routine e' = routine e
  /\ isPaused e' = isPaused e.

Ltac fields :=
  cbn [engine clock nextFrame pendingFrames log
       startTime pausedTime pauseStartTime animationFrameId routine
       currentIntervalIndex isRunning isPaused
       set_startTime set_pausedTime set_pauseStartTime set_animationFrameId
       set_routine set_currentIntervalIndex set_isRunning set_isPaused] in *.

Ltac open_world w :=
  let e := fresh "e" in
  destruct w as [e ? ? ? ?];
  destruct e as [? ? ? ? ? ? ? ?];
  cbn [engine clock nextFrame pendingFrames log
       startTime pausedTime pauseStartTime animationFrameId routine
       currentIntervalIndex isRunning isPaused] in *.

(** The engine [pause] leaves behind when it was running, but for the
    frame handle. *)
Definition pausedEngine (now : Z) (e : Engine) : Engine :=
  set_pauseStartTime now (set_isRunning false (set_isPaused true e)).

(** The engine [reset] leaves behind, but for the frame handle. *)
Definition resetEngine (e : Engine) : Engine :=
  set_pauseStartTime 0
    (set_pausedTime 0
       (set_startTime 0
          (set_currentIntervalIndex 0%nat
             (set_isPaused false (set_isRunning false e))))).

(** The engine after the index moved to [k] and the timer was adjusted. *)
Definition movedEngine (now : Z) (k : nat) (e : Engine) : Engine :=
  set_pausedTime 0
    (set_startTime
       (now - TimerEngine.sumDurationsMs (TimerEngine.slice0 (routine e) k))
       (set_currentIntervalIndex k e)).

(** The world after [nextInterval] or [previousInterval] moved to [k]:
    [adjustTimerForNewInterval] reports the state, then the caller reports
    the change of interval. *)
Definition movedWorld (k : nat) (w : World) : World :=
  mkWorld (movedEngine (clock w) k (engine w)) (clock w) (nextFrame w)
          (pendingFrames w)
          (log w ++ [OnTick (TimerEngine.computeState
                               (clock w) (movedEngine (clock w) k (engine w)));
                     OnIntervalChange k]).

(** The engine right after a routine was loaded. *)
Definition loadedEngine (r : Routine) : Engine :=
  mkEngine 0 0 0 None r 0%nat false false.

(** The scheduled callbacks once the one behind handle [h], if any, is
    cancelled. *)
Definition withoutFrame (h : option positive) (pending : list positive)
  : list positive :=
  match h with
  | Some id => filter (fun x => negb (Pos.eqb x id)) pending
  | None => pending
  end.

(** The routine of the test suite (src/utils/__tests__/timer.test.ts). *)
Definition sampleRoutine : Routine :=
  [ mkInterval "Warmup" 5 warmup None;
    mkInterval "Work 1" 10 work None;
    mkInterval "Rest 1" 5 rest None;
    mkInterval "Work 2" 10 work None;
    mkInterval "Cooldown" 5 cooldown None ].

(** On the routine [[a; b]]: what holds from [start] until the clock has
    moved 5000ms on. *)
Definition crossing (a b : Interval) (w : World) : Prop :=
  isRunning (engine w) = true
  /\ routine (engine w) = [a; b]
  /\ 0 <= totalElapsedMs w <= 5000
  /\ pendingFrames w <> []
  /\ ((currentIntervalIndex (engine w) = 0%nat
       /\ intervalChanges (log w) = [])
      \/ (totalElapsedMs w = 5000
          /\ currentIntervalIndex (engine w) = 1%nat
          /\ intervalChanges (log w) = [1%nat])).

(** What an action appended to the log. *)
Definition emitted (a : Action) (w : World) : list Notification :=
  skipn (length (log w)) (log (exec (perform a) w)).

(** Every state notification is [computeState] at the current instant of an
    engine that has the routine and the index the action leaves behind. *)
Definition reportOf (w w' : World) (st : TimerState.t) : Prop :=
  exists e' : Engine,
    st = TimerEngine.computeState (clock w) e'
    /\ routine e' = routine (engine w')
    /\ currentIntervalIndex e' = currentIntervalIndex (engine w').

(** Actions that are not a request to run, to move or to reload. *)
Definition quiet (a : Action) : Prop :=
  match a with
  | Pause | Destroy | Advance _ | Frame => True
  | _ => False
  end.

(** C5 as the specification words it: after the completing re-evaluation,
    no state notification is emitted as long as neither [reset] nor
    [setRoutine] is called. *)
Definition silentUntilReload (w : World) : Prop :=
  forall acts : list Action,
    Forall (fun a => a <> Reset /\ forall r, a <> SetRoutine r) acts ->
    ticks (log (run acts w)) = ticks (log w).

(** A routine of one interval of three seconds ... *)
Definition threeSeconds : Routine := [mkInterval "A" 3 work None].

(** ... loaded, started and re-evaluated three seconds later. *)
Definition completedWorld : World :=
  run [SetRoutine threeSeconds; Start; Advance 3000; Frame] (boot 0).

(** The state reported for a routine that was just loaded. *)
Definition loadedState (r : Routine) : TimerState.t :=
  TimerState.mk false false 0 (durationAt r 0) 0 (totalDurationOf r).

(** C6 as the specification words it: loading emits exactly one state
    notification. *)
Definition loadEmitsOneState (r : Routine) (w : World) : Prop :=
  exists st : TimerState.t, emitted (SetRoutine r) w = [OnTick st].

(** The three calls the empty routine turns into no-ops. *)
Definition startOrMove (a : Action) : Prop :=
  match a with
  | Start | NextInterval | PreviousInterval => True
  | _ => False
  end.

(** [w'] is [w] after an actual move to interval [k] by action [a]: the
    index, the two anchors the move sets, what it keeps, the two
    notifications; on a running engine the elapsed time, in the anchors and
    in the reported state, is the sum of the durations before [k]; on an
    idle engine the reported elapsed time is 0. *)
Definition movedTo (a : Action) (k : nat) (w w' : World) : Prop :=
  currentIntervalIndex (engine w') = k
  /\ startTime (engine w')
     = clock w - cumulativeDurationBefore (routine (engine w)) k
  /\ pausedTime (engine w') = 0
  /\ routine (engine w') = routine (engine w)
  /\ isRunning (engine w') = isRunning (engine w)
  /\ isPaused (engine w') = isPaused (engine w)
  /\ exists st : TimerState.t,
       emitted a w = [OnTick st; OnIntervalChange k]
       /\ TimerState.currentIntervalIndex st = k
       /\ (isRunning (engine w) = true ->
           totalElapsedMs w' = cumulativeDurationBefore (routine (engine w)) k
           /\ TimerState.totalElapsed st
              = totalDurationOf (firstn k (routine (engine w))))
       /\ (isRunning (engine w) = false -> isPaused (engine w) = false ->
           TimerState.totalElapsed st = 0).

(** C7 as the specification words it: after a move to [k], in whatever
    state, the engine's elapsed time is the sum of the durations of the
    intervals before [k]. *)
Definition moveCountsEarlierAsPlayed (a : Action) (k : nat) (w : World) : Prop :=
  forall st : TimerState.t,
    In (OnTick st) (emitted a w) ->
    TimerState.totalElapsed st
    = totalDurationOf (firstn k (routine (engine w))).

(** The sample routine loaded and not started. *)
Definition idleWorld : World := run [SetRoutine sampleRoutine] (boot 0).

(** The sample routine started, paused after one second, moved to the next
    interval nineteen seconds later, resumed, and 16ms on: a running engine
    about to be re-evaluated. *)
Definition resumedAfterPausedMove : World :=
  run [SetRoutine sampleRoutine; Start; Advance 1000; Pause; Advance 19000;
       NextInterval; Start; Advance 16] (boot 0).

(** C8 as the specification words it: a completed engine does not run
    again unless [reset] or [setRoutine] is called first. *)
Definition terminalUntilReload (w : World) : Prop :=
  forall acts : list Action,
    Forall (fun a => a <> Reset /\ forall r, a <> SetRoutine r) acts ->
    isRunning (engine (run acts w)) = false.

(** C10 as worded: [start] on a running engine leaves the current index as
    it was. *)
Definition restartKeepsIndex (w : World) : Prop :=
  isRunning (engine w) = true ->
  isPaused (engine w) = false ->
  routine (engine w) <> [] ->
  currentIntervalIndex (engine (exec (perform Start) w))
  = currentIntervalIndex (engine w).

(** The sample routine, five seconds in: running in its second interval. *)
Definition secondIntervalWorld : World :=
  run [SetRoutine sampleRoutine; Start; Advance 5000; Frame] (boot 0).

(** The shape every world driven from [boot] keeps: a running engine is not
    paused, and the current index is inside the routine (0 when the routine
    is empty). *)
Definition wellFormed (e : Engine) : Prop :=
  (isRunning e = true -> isPaused e = false)
  /\ (currentIntervalIndex e < Nat.max 1 (length (routine e)))%nat.

(** ** Definitions for the further properties of the engine *)

(** What a whole list of actions appended to the log. *)
Definition emittedBy (acts : list Action) (w : World) : list Notification :=
  skipn (length (log w)) (log (run acts w)).

(** The clock moves (in either direction) or a frame callback runs. *)
Definition clockOrFrame (a : Action) : Prop :=
  match a with
  | Advance _ | Frame => True
  | _ => False
  end.

(** Two engines that differ at most in the frame handle they hold. *)
Definition sameButFrame (e e' : Engine) : Prop :=
  startTime e' = startTime e
  /\ pausedTime e' = pausedTime e
  /\ pauseStartTime e' = pauseStartTime e
  /\ routine e' = routine e
  /\ currentIntervalIndex e' = currentIntervalIndex e
  /\ isRunning e' = isRunning e
  /\ isPaused e' = isPaused e.

(** Handle [h], if any, is not scheduled in [pending]. *)
Definition notScheduled (h : option positive) (pending : list positive) : Prop :=
  match h with
  | Some id => ~ In id pending
  | None => True
  end.

(** A reported state together with the bound on the elapsed time behind it:
    it is [computeState] of an engine holding the routine the action leaves
    behind, and if that engine runs, its elapsed time is not past the end
    of the routine. *)
Definition boundedReport (w w' : World) (st : TimerState.t) : Prop :=
  exists e' : Engine,
    st = TimerEngine.computeState (clock w) e'
    /\ routine e' = routine (engine w')
    /\ (valid_routine (routine e') -> isRunning e' = true ->
        clock w - startTime e' - pausedTime e'
        <= 1000 * totalDurationOf (routine e')).

(** ** Definitions for the properties of src/utils/format.ts *)

(** Every character of a string passes a test. *)
Fixpoint every (p : ascii -> bool) (s : string) : bool :=
  match s with
  | String c s' => p c && every p s'
  | EmptyString => true
  end.

Definition notWhiteSpace (c : ascii) : bool := negb (Format.isWhiteSpace c).
Definition notColon (c : ascii) : bool := negb (Ascii.eqb c ":").

(** Integers for which the integer model of format.ts is the behaviour of
    the JavaScript functions. *)
Definition exactRange (n : Z) : Prop := Z.abs n < 10 ^ 15.

(** ** Arithmetic of durations *)


Lemma totalDurationOf_cons (x : Interval) (xs : Routine) :
  totalDurationOf (x :: xs) = duration x + totalDurationOf xs.
Proof. reflexivity. Qed.

Lemma fold_left_durations (xs : Routine) (a : Z) :
  fold_left (fun sum interval => sum + duration interval * 1000) xs a
  = a + 1000 * totalDurationOf xs.
Proof.
  revert a; induction xs as [|x xs IH]; intros a.
  - simpl. lia.
  - cbn [fold_left]. rewrite IH, totalDurationOf_cons. lia.
Qed.

Lemma sumDurationsMs_total (r : Routine) :
  TimerEngine.sumDurationsMs r = 1000 * totalDurationOf r.
Proof. unfold TimerEngine.sumDurationsMs. rewrite fold_left_durations. lia. Qed.

Lemma sumDurationsMs_slice0 (r : Routine) (i : nat) :
  TimerEngine.sumDurationsMs (TimerEngine.slice0 r i)
  = cumulativeDurationBefore r i.
Proof. unfold TimerEngine.slice0. apply sumDurationsMs_total. Qed.

Lemma totalDurationOf_nonneg (r : Routine) :
  valid_routine r -> 0 <= totalDurationOf r.
Proof.
  induction 1 as [|x xs Hx _ IH].
  - simpl. lia.
  - rewrite totalDurationOf_cons. lia.
Qed.

Lemma valid_durationAt (r : Routine) (i : nat) :
  valid_routine r -> 0 <= durationAt r i.
Proof.
  intros H; revert i; induction H as [|x xs Hx _ IH]; intros [|i];
    unfold durationAt; simpl; try lia.
  apply IH.
Qed.

Lemma cumulative_succ (r : Routine) (i : nat) :
  cumulativeDurationBefore r (S i)
  = cumulativeDurationBefore r i + 1000 * durationAt r i.
Proof.
  unfold cumulativeDurationBefore, durationAt.
  revert i; induction r as [|x xs IH]; intros i.
  - destruct i; reflexivity.
  - destruct i as [|i].
    + change (firstn 1 (x :: xs)) with [x].
      change (firstn 0 (x :: xs)) with (@nil Interval).
      change (nth_error (x :: xs) 0) with (Some x).
      rewrite totalDurationOf_cons.
      change (totalDurationOf []) with 0. lia.
    + specialize (IH i).
      change (firstn (S (S i)) (x :: xs)) with (x :: firstn (S i) xs).
      change (firstn (S i) (x :: xs)) with (x :: firstn i xs).
      change (nth_error (x :: xs) (S i)) with (nth_error xs i).
      rewrite !totalDurationOf_cons. lia.
Qed.

Lemma cumulative_zero (r : Routine) : cumulativeDurationBefore r 0 = 0.
Proof. reflexivity. Qed.

Lemma cumulative_all (r : Routine) (i : nat) :
  (length r <= i)%nat ->
  cumulativeDurationBefore r i = 1000 * totalDurationOf r.
Proof.
  intros H. unfold cumulativeDurationBefore. now rewrite firstn_all2.
Qed.

Lemma cumulative_mono (r : Routine) (i j : nat) :
  valid_routine r -> (i <= j)%nat ->
  cumulativeDurationBefore r i <= cumulativeDurationBefore r j.
Proof.
  intros Hv Hij. induction Hij as [|j _ IH].
  - lia.
  - rewrite cumulative_succ. pose proof (valid_durationAt r j Hv). lia.
Qed.

Lemma cumulative_le_total (r : Routine) (i : nat) :
  valid_routine r ->
  cumulativeDurationBefore r i <= 1000 * totalDurationOf r.
Proof.
  intros Hv. rewrite <- (cumulative_all r (Nat.max i (length r))) by lia.
  apply cumulative_mono; auto; lia.
Qed.

Lemma cumulative_nonneg (r : Routine) (i : nat) :
  valid_routine r -> 0 <= cumulativeDurationBefore r i.
Proof.
  intros Hv. rewrite <- (cumulative_zero r). apply cumulative_mono; auto; lia.
Qed.

(** Two spans cannot hold the same instant. *)
Lemma inSpan_unique (r : Routine) (i j : nat) (ms : Z) :
  valid_routine r -> inSpan r i ms -> inSpan r j ms -> i = j.
Proof.
  intros Hv Hi Hj. unfold inSpan in *.
  rewrite <- cumulative_succ in Hi, Hj.
  destruct (Nat.lt_trichotomy i j) as [H|[H|H]]; auto; exfalso.
  - pose proof (cumulative_mono r (S i) j Hv ltac:(lia)). lia.
  - pose proof (cumulative_mono r (S j) i Hv ltac:(lia)). lia.
Qed.

(** ** The loop of [tick] *)

Lemma cumulative_cons (x : Interval) (xs : Routine) (n : nat) :
  cumulativeDurationBefore (x :: xs) (S n)
  = 1000 * duration x + cumulativeDurationBefore xs n.
Proof.
  unfold cumulativeDurationBefore.
  change (firstn (S n) (x :: xs)) with (x :: firstn n xs).
  rewrite totalDurationOf_cons. lia.
Qed.

Lemma tickLoop_spec (e : Z) (rest : Routine) :
  forall (i : nat) (acc : Z),
    valid_routine rest -> acc <= e ->
    exists k : nat,
      TimerEngine.tickLoop e rest i acc i = (i + k)%nat
      /\ (k <= length rest)%nat
      /\ acc + cumulativeDurationBefore rest k <= e
      /\ ((k < length rest)%nat ->
          e < acc + cumulativeDurationBefore rest (S k)).
Proof.
  induction rest as [|x xs IH]; intros i acc Hv Hacc.
  - exists 0%nat. cbn [TimerEngine.tickLoop length].
    rewrite Nat.add_0_r, cumulative_zero.
    repeat split; try lia.
  - inversion Hv as [|? ? Hx Hxs]; subst.
    cbn [TimerEngine.tickLoop length].
    destruct (Z.ltb_spec e (acc + duration x * 1000)) as [Hlt|Hge].
    + exists 0%nat. rewrite Nat.add_0_r, cumulative_zero.
      repeat split; try lia.
      intros _. rewrite cumulative_cons, cumulative_zero. lia.
    + destruct (IH (S i) (acc + duration x * 1000) Hxs Hge)
        as (k & Hk & Hlen & Hlo & Hhi).
      exists (S k). rewrite Hk.
      repeat split; try lia.
      * rewrite cumulative_cons. lia.
      * intros Hlt. rewrite cumulative_cons. specialize (Hhi ltac:(lia)). lia.
Qed.

Lemma deriveIntervalIndex_le (r : Routine) (e : Z) :
  (TimerEngine.deriveIntervalIndex r e <= length r)%nat.
Proof.
  unfold TimerEngine.deriveIntervalIndex.
  assert (H : forall todo i acc,
             (TimerEngine.tickLoop e todo i acc i <= i + length todo)%nat).
  { intros todo. induction todo as [|x xs IH]; intros i acc; simpl.
    - lia.
    - destruct (e <? acc + duration x * 1000).
      + lia.
      + specialize (IH (S i) (acc + duration x * 1000)). lia. }
  apply (H r 0%nat 0).
Qed.

(** Inside the routine the derived index is the interval whose span holds
    the elapsed time; at or past the end it is the length. *)
Lemma deriveIntervalIndex_spec (r : Routine) (e : Z) :
  valid_routine r -> 0 <= e ->
  let i := TimerEngine.deriveIntervalIndex r e in
  ((i < length r)%nat /\ inSpan r i e)
  \/ (i = length r /\ 1000 * totalDurationOf r <= e).
Proof.
  intros Hv He i.
  destruct (tickLoop_spec e r 0%nat 0 Hv He) as (k & Hk & Hlen & Hlo & Hhi).
  assert (Hi : i = k) by (subst i; exact Hk).
  destruct (Nat.eq_dec k (length r)) as [Heq|Hne].
  - right. split; [lia|].
    rewrite <- (cumulative_all r k) by lia. lia.
  - left. split; [lia|]. rewrite Hi. unfold inSpan.
    rewrite <- cumulative_succ. specialize (Hhi ltac:(lia)). lia.
Qed.

(** Before the first boundary (also for a negative elapsed time) the loop
    leaves at once with index 0. *)
Lemma deriveIntervalIndex_first (x : Interval) (xs : Routine) (e : Z) :
  e < 1000 * duration x ->
  TimerEngine.deriveIntervalIndex (x :: xs) e = 0%nat.
Proof.
  intros H. unfold TimerEngine.deriveIntervalIndex.
  cbn [TimerEngine.tickLoop].
  destruct (Z.ltb_spec e (0 + duration x * 1000)); [reflexivity|lia].
Qed.

(** ** What each method does to the world *)

Lemma exec_seq {B} (m : M unit) (k : M B) (w : World) :
  exec (m ;; k) w = exec k (exec m w).
Proof. unfold exec, bind. destruct (m w) as [[] w']. reflexivity. Qed.

Lemma run_app (xs ys : list Action) (w : World) :
  run (xs ++ ys) w = run ys (run xs w).
Proof. unfold run. apply fold_left_app. Qed.

Lemma run_cons (a : Action) (xs : list Action) (w : World) :
  run (a :: xs) w = run xs (exec (perform a) w).
Proof. reflexivity. Qed.

Lemma updateState_exec (w : World) :
  exec TimerEngine.updateState w
  = mkWorld (engine w) (clock w) (nextFrame w) (pendingFrames w)
            (log w ++ [OnTick (TimerEngine.computeState (clock w) (engine w))]).
Proof. reflexivity. Qed.

Lemma tick_not_running (w : World) :
  isRunning (engine w) = false -> exec TimerEngine.tick w = w.
Proof.
  intros H. unfold exec, TimerEngine.tick, bind, this. rewrite H. reflexivity.
Qed.

Lemma tick_complete (w : World) :
  isRunning (engine w) = true ->
  (length (routine (engine w))
   <= TimerEngine.deriveIntervalIndex (routine (engine w)) (totalElapsedMs w))%nat ->
  exec TimerEngine.tick w
  = mkWorld (set_isRunning false (engine w)) (clock w) (nextFrame w)
            (pendingFrames w) (log w ++ [OnComplete]).
Proof.
  intros Hrun Hend. unfold totalElapsedMs in Hend.
  unfold exec, TimerEngine.tick, bind, this, Date_now. rewrite Hrun.
  cbn [negb].
  destruct (Nat.ltb_spec
              (TimerEngine.deriveIntervalIndex (routine (engine w))
                 (clock w - startTime (engine w) - pausedTime (engine w)))
              (length (routine (engine w)))) as [Hlt|_]; [lia|].
  rewrite andb_false_r. cbn [ret].
  destruct (Nat.leb_spec
              (length (routine (engine w)))
              (TimerEngine.deriveIntervalIndex (routine (engine w))
                 (clock w - startTime (engine w) - pausedTime (engine w))))
    as [_|Hlt]; [|lia].
  reflexivity.
Qed.

Lemma tick_continue (w : World) :
  isRunning (engine w) = true ->
  let i := TimerEngine.deriveIntervalIndex (routine (engine w))
                                           (totalElapsedMs w) in
  (i < length (routine (engine w)))%nat ->
  exec TimerEngine.tick w
  = mkWorld (set_animationFrameId (Some (nextFrame w))
               (set_currentIntervalIndex i (engine w)))
            (clock w) (Pos.succ (nextFrame w))
            (pendingFrames w ++ [nextFrame w])
            (log w ++ tickNotes (clock w) (engine w) i).
Proof.
  intros Hrun i Hin. subst i. unfold totalElapsedMs in *.
  destruct w as [e c nf pf lg]. destruct e as [st pt pst af r ix rn ps].
  cbn [engine clock nextFrame pendingFrames log routine startTime pausedTime
       isRunning currentIntervalIndex] in *.
  subst rn.
  unfold exec, TimerEngine.tick, bind, this, Date_now, tickNotes.
  cbn [engine clock nextFrame pendingFrames log routine startTime pausedTime
       isRunning currentIntervalIndex negb].
  set (i := TimerEngine.deriveIntervalIndex r (c - st - pt)) in *.
  destruct (Nat.ltb_spec i (length r)) as [_|Hge]; [|lia].
  destruct (Nat.leb_spec (length r) i) as [Hle|_]; [lia|].
  rewrite andb_true_r.
  destruct (Nat.eqb_spec i ix) as [Heq|Hne]; cbn [negb].
  - subst ix. reflexivity.
  - cbn. rewrite <- !app_assoc. reflexivity.
Qed.

Lemma frame_none (w : World) :
  pendingFrames w = [] -> exec frame w = w.
Proof. intros H. unfold exec, frame. rewrite H. reflexivity. Qed.

Lemma frame_tick (w : World) (id : positive) (later : list positive) :
  pendingFrames w = id :: later ->
  exec frame w
  = exec TimerEngine.tick
      (mkWorld (engine w) (clock w) (nextFrame w) later (log w)).
Proof. intros H. unfold exec, frame. rewrite H. reflexivity. Qed.

(** ** Letting time pass: clock advances and frame callbacks only *)

Lemma elapse_nonneg (acts : list Action) :
  Forall passing acts -> 0 <= elapse acts.
Proof.
  induction 1 as [|a acts Ha _ IH]; simpl; [lia|].
  destruct a; simpl in Ha; try contradiction; lia.
Qed.

Lemma intervalChanges_app (l l' : list Notification) :
  intervalChanges (l ++ l') = intervalChanges l ++ intervalChanges l'.
Proof. unfold intervalChanges. apply flat_map_app. Qed.

Lemma ticks_app (l l' : list Notification) :
  ticks (l ++ l') = ticks l ++ ticks l'.
Proof. unfold ticks. apply flat_map_app. Qed.

Lemma intervalChanges_tickNotes (now : Z) (e : Engine) (i : nat) :
  intervalChanges (tickNotes now e i)
  = if (i =? currentIntervalIndex e)%nat then [] else [i].
Proof. unfold tickNotes. destruct (i =? currentIntervalIndex e)%nat; reflexivity. Qed.


Lemma sameAnchors_trans (e1 e2 e3 : Engine) :
  sameAnchors e1 e2 -> sameAnchors e2 e3 -> sameAnchors e1 e3.
Proof.
  unfold sameAnchors. intros (A1 & A2 & A3 & A4 & A5) (B1 & B2 & B3 & B4 & B5).
  repeat split; congruence.
Qed.

Lemma cancelPending_exec (w : World) :
  exec TimerEngine.cancelPending w
  = match animationFrameId (engine w) with
    | Some id =>
        mkWorld (set_animationFrameId None (engine w)) (clock w) (nextFrame w)
                (filter (fun h => negb (Pos.eqb h id)) (pendingFrames w))
                (log w)
    | None => w
    end.
Proof.
  unfold exec, TimerEngine.cancelPending, bind, this.
  destruct (animationFrameId (engine w)); reflexivity.
Qed.

Lemma start_empty (w : World) :
  routine (engine w) = [] -> exec TimerEngine.start w = w.
Proof.
  intros H. unfold exec, TimerEngine.start, bind, this. rewrite H. reflexivity.
Qed.

Lemma start_fresh (w : World) :
  routine (engine w) <> [] -> isPaused (engine w) = false ->
  exec TimerEngine.start w
  = exec TimerEngine.tick
      (mkWorld (set_isRunning true
                  (set_pausedTime 0 (set_startTime (clock w) (engine w))))
               (clock w) (nextFrame w) (pendingFrames w) (log w)).
Proof.
  intros Hne Hp. unfold exec at 1. unfold TimerEngine.start, bind, this.
  destruct (routine (engine w)) as [|x xs] eqn:E; [congruence|].
  cbn [length Nat.eqb]. rewrite Hp. reflexivity.
Qed.

Lemma start_resume (w : World) :
  routine (engine w) <> [] -> isPaused (engine w) = true ->
  exec TimerEngine.start w
  = exec TimerEngine.tick
      (mkWorld (set_isRunning true
                  (set_isPaused false
                     (set_pausedTime
                        (pausedTime (engine w)
                         + (clock w - pauseStartTime (engine w)))
                        (engine w))))
               (clock w) (nextFrame w) (pendingFrames w) (log w)).
Proof.
  intros Hne Hp. unfold exec at 1. unfold TimerEngine.start, bind, this.
  destruct (routine (engine w)) as [|x xs] eqn:E; [congruence|].
  cbn [length Nat.eqb]. rewrite Hp. reflexivity.
Qed.

Lemma pause_not_running (w : World) :
  isRunning (engine w) = false -> exec TimerEngine.pause w = w.
Proof.
  intros H. unfold exec, TimerEngine.pause, bind, this. rewrite H. reflexivity.
Qed.

Lemma pause_running (w : World) :
  isRunning (engine w) = true ->
  exec TimerEngine.pause w
  = exec TimerEngine.updateState
      (exec TimerEngine.cancelPending
         (mkWorld (pausedEngine (clock w) (engine w))
                  (clock w) (nextFrame w) (pendingFrames w) (log w))).
Proof.
  intros H. unfold exec at 1. unfold TimerEngine.pause, bind, this.
  rewrite H. cbn [negb].
  unfold assign, Date_now.
  cbn [engine clock nextFrame pendingFrames log].
  unfold exec.
  destruct (TimerEngine.cancelPending _) as [[] w1]. reflexivity.
Qed.

Lemma reset_exec (w : World) :
  exec TimerEngine.reset w
  = exec TimerEngine.updateState
      (exec TimerEngine.cancelPending
         (mkWorld (resetEngine (engine w))
                  (clock w) (nextFrame w) (pendingFrames w) (log w))).
Proof.
  unfold exec at 1. unfold TimerEngine.reset, bind, assign.
  cbn [engine clock nextFrame pendingFrames log].
  unfold exec.
  destruct (TimerEngine.cancelPending _) as [[] w1]. reflexivity.
Qed.

Lemma setRoutine_exec (r : Routine) (w : World) :
  exec (TimerEngine.setRoutine r) w
  = exec TimerEngine.updateState
      (exec TimerEngine.reset
         (mkWorld (set_routine r (engine w))
                  (clock w) (nextFrame w) (pendingFrames w) (log w))).
Proof.
  unfold exec at 1. unfold TimerEngine.setRoutine.
  change (snd (bind (assign (set_routine r))
                    (fun _ => TimerEngine.reset ;; TimerEngine.updateState) w))
    with (exec (TimerEngine.reset ;; TimerEngine.updateState)
               (mkWorld (set_routine r (engine w))
                        (clock w) (nextFrame w) (pendingFrames w) (log w))).
  apply exec_seq.
Qed.

Lemma nextInterval_exec (w : World) :
  exec TimerEngine.nextInterval w
  = if Z.of_nat (currentIntervalIndex (engine w))
       <? Z.of_nat (length (routine (engine w))) - 1
    then movedWorld (currentIntervalIndex (engine w) + 1) w
    else w.
Proof.
  unfold exec, TimerEngine.nextInterval, bind, this.
  destruct (Z.of_nat (currentIntervalIndex (engine w))
            <? Z.of_nat (length (routine (engine w))) - 1); [|reflexivity].
  open_world w. unfold movedWorld, movedEngine. cbn.
  rewrite <- app_assoc. reflexivity.
Qed.

Lemma previousInterval_exec (w : World) :
  exec TimerEngine.previousInterval w
  = if (0 <? currentIntervalIndex (engine w))%nat
    then movedWorld (currentIntervalIndex (engine w) - 1) w
    else w.
Proof.
  unfold exec, TimerEngine.previousInterval, bind, this.
  destruct (0 <? currentIntervalIndex (engine w))%nat; [|reflexivity].
  open_world w. unfold movedWorld, movedEngine. cbn.
  rewrite <- app_assoc. reflexivity.
Qed.

Lemma reset_world (w : World) :
  exec TimerEngine.reset w
  = mkWorld (loadedEngine (routine (engine w))) (clock w) (nextFrame w)
            (withoutFrame (animationFrameId (engine w)) (pendingFrames w))
            (log w ++ [OnTick (TimerEngine.computeState
                                 (clock w)
                                 (loadedEngine (routine (engine w))))]).
Proof.
  rewrite reset_exec, cancelPending_exec.
  destruct w as [[st pt pst af r ix rn ps] c nf pf lg].
  destruct af; reflexivity.
Qed.

Lemma setRoutine_world (r : Routine) (w : World) :
  exec (TimerEngine.setRoutine r) w
  = mkWorld (loadedEngine r) (clock w) (nextFrame w)
            (withoutFrame (animationFrameId (engine w)) (pendingFrames w))
            (log w ++ [OnTick (TimerEngine.computeState (clock w) (loadedEngine r));
                       OnTick (TimerEngine.computeState (clock w) (loadedEngine r))]).
Proof.
  rewrite setRoutine_exec, reset_world, updateState_exec.
  cbn [engine clock nextFrame pendingFrames log routine animationFrameId
       set_routine].
  rewrite <- app_assoc. reflexivity.
Qed.

Lemma elapse_advance (dt : Z) (acts : list Action) :
  elapse (Advance dt :: acts) = dt + elapse acts.
Proof. reflexivity. Qed.

Lemma elapse_frame (acts : list Action) :
  elapse (Frame :: acts) = elapse acts.
Proof. reflexivity. Qed.

Lemma advance_world (dt : Z) (w : World) :
  exec (perform (Advance dt)) w
  = mkWorld (engine w) (clock w + dt) (nextFrame w) (pendingFrames w) (log w).
Proof. reflexivity. Qed.

Lemma passing_not_running (steps : list Action) :
  forall w : World,
    Forall passing steps -> isRunning (engine w) = false ->
    engine (run steps w) = engine w
    /\ log (run steps w) = log w
    /\ clock (run steps w) = clock w + elapse steps
    /\ nextFrame (run steps w) = nextFrame w.
Proof.
  induction steps as [|a steps IH]; intros w Hall Hrun.
  - cbn. repeat split; lia.
  - inversion Hall as [|? ? Ha Hrest]; subst. rewrite run_cons.
    destruct a; cbn in Ha; try contradiction.
    + (* Advance *)
      destruct (IH (exec (perform (Advance dt)) w) Hrest Hrun)
        as (He & Hl & Hc & Hn).
      rewrite He, Hl, Hc, Hn, elapse_advance, advance_world.
      cbn [engine clock nextFrame log]. repeat split; lia.
    + (* Frame *)
      assert (Hf : engine (exec (perform Frame) w) = engine w
                   /\ log (exec (perform Frame) w) = log w
                   /\ clock (exec (perform Frame) w) = clock w
                   /\ nextFrame (exec (perform Frame) w) = nextFrame w).
      { cbn [perform]. destruct (pendingFrames w) as [|id later] eqn:E.
        - rewrite frame_none by exact E. repeat split.
        - rewrite (frame_tick w id later E), tick_not_running by exact Hrun.
          repeat split. }
      destruct Hf as (He & Hl & Hc & Hn).
      destruct (IH (exec (perform Frame) w) Hrest ltac:(congruence))
        as (He' & Hl' & Hc' & Hn').
      rewrite He', Hl', Hc', Hn', He, Hl, Hc, Hn, elapse_frame.
      repeat split; lia.
Qed.

Lemma frame_running (w : World) :
  isRunning (engine w) = true ->
  pendingFrames w <> [] ->
  let i := TimerEngine.deriveIntervalIndex (routine (engine w))
                                           (totalElapsedMs w) in
  (i < length (routine (engine w)))%nat ->
  exec (perform Frame) w
  = mkWorld (set_animationFrameId (Some (nextFrame w))
               (set_currentIntervalIndex i (engine w)))
            (clock w) (Pos.succ (nextFrame w))
            (tl (pendingFrames w) ++ [nextFrame w])
            (log w ++ tickNotes (clock w) (engine w) i).
Proof.
  intros Hrun Hpend i Hi. cbn [perform].
  destruct (pendingFrames w) as [|id later] eqn:E; [congruence|].
  rewrite (frame_tick w id later E).
  rewrite tick_continue; [reflexivity|exact Hrun|exact Hi].
Qed.

(** Before the end of the routine a re-evaluation keeps the engine running. *)
Lemma derive_inside (r : Routine) (e : Z) :
  valid_routine r -> 0 <= e -> e < 1000 * totalDurationOf r ->
  (TimerEngine.deriveIntervalIndex r e < length r)%nat.
Proof.
  intros Hv He Hlt.
  destruct (deriveIntervalIndex_spec r e Hv He) as [[H _]|[_ H]]; [exact H|lia].
Qed.

Lemma passing_running (steps : list Action) :
  forall w : World,
    Forall passing steps ->
    isRunning (engine w) = true ->
    valid_routine (routine (engine w)) ->
    0 <= totalElapsedMs w ->
    totalElapsedMs w + elapse steps
    < 1000 * totalDurationOf (routine (engine w)) ->
    pendingFrames w <> [] ->
    isRunning (engine (run steps w)) = true
    /\ sameAnchors (engine w) (engine (run steps w))
    /\ clock (run steps w) = clock w + elapse steps
    /\ pendingFrames (run steps w) <> [].
Proof.
  induction steps as [|a steps IH]; intros w Hall Hrun Hv He Hlt Hpend.
  - cbn. repeat split; auto; lia.
  - inversion Hall as [|? ? Ha Hrest]; subst. rewrite run_cons.
    pose proof (elapse_nonneg steps Hrest) as Hnn.
    destruct a; cbn in Ha; try contradiction.
    + (* Advance *)
      rewrite elapse_advance in *. rewrite advance_world.
      set (w1 := mkWorld (engine w) (clock w + dt) (nextFrame w)
                         (pendingFrames w) (log w)).
      destruct (IH w1) as (R & A & C & P); auto.
      * unfold totalElapsedMs in *. subst w1. fields. lia.
      * unfold totalElapsedMs in *. subst w1. fields. lia.
      * split; [exact R|]. split; [exact A|]. split; [|exact P].
        rewrite C. subst w1. fields. lia.
    + (* Frame *)
      rewrite elapse_frame in *.
      assert (Hi : (TimerEngine.deriveIntervalIndex (routine (engine w))
                      (totalElapsedMs w) < length (routine (engine w)))%nat).
      { apply derive_inside; auto; lia. }
      rewrite (frame_running w Hrun Hpend Hi).
      match goal with |- context [run steps ?x] => set (w1 := x) end.
      assert (P1 : pendingFrames w1 <> []).
      { subst w1. fields. intros Hnil. apply app_eq_nil in Hnil.
        destruct Hnil as [_ Hnil]. discriminate. }
      destruct (IH w1 Hrest Hrun Hv He Hlt P1) as (R & A & C & P).
      split; [exact R|]. split; [exact A|]. split; [exact C|exact P].
Qed.

Lemma last_tickNotes (l : list Notification) (now : Z) (e : Engine) (i : nat)
      (d : Notification) :
  last (l ++ tickNotes now e i) d
  = OnTick (TimerEngine.computeState now (set_currentIntervalIndex i e)).
Proof. unfold tickNotes. rewrite app_assoc. apply last_last. Qed.

Lemma totalDuration_positive_nonempty (r : Routine) :
  0 < totalDurationOf r -> r <> [].
Proof. intros H E. subst r. cbn in H. lia. Qed.

Lemma start_fresh_facts (w : World) :
  valid_routine (routine (engine w)) ->
  0 < totalDurationOf (routine (engine w)) ->
  isPaused (engine w) = false ->
  let w' := exec TimerEngine.start w in
  isRunning (engine w') = true
  /\ isPaused (engine w') = false
  /\ startTime (engine w') = clock w
  /\ pausedTime (engine w') = 0
  /\ routine (engine w') = routine (engine w)
  /\ clock w' = clock w
  /\ pendingFrames w' <> [].
Proof.
  intros Hv Hpos Hp w'. subst w'.
  rewrite start_fresh by (auto using totalDuration_positive_nonempty).
  rewrite tick_continue.
  - fields. repeat split; auto.
    intros Hnil. apply app_eq_nil in Hnil. destruct Hnil; discriminate.
  - reflexivity.
  - unfold totalElapsedMs. fields. apply derive_inside; auto; lia.
Qed.

Lemma start_resume_facts (w : World) :
  valid_routine (routine (engine w)) ->
  isPaused (engine w) = true ->
  0 <= pauseStartTime (engine w) - startTime (engine w) - pausedTime (engine w)
    < 1000 * totalDurationOf (routine (engine w)) ->
  let w' := exec TimerEngine.start w in
  isRunning (engine w') = true
  /\ isPaused (engine w') = false
  /\ startTime (engine w') = startTime (engine w)
  /\ pausedTime (engine w')
     = pausedTime (engine w) + (clock w - pauseStartTime (engine w))
  /\ routine (engine w') = routine (engine w)
  /\ clock w' = clock w
  /\ pendingFrames w' <> [].
Proof.
  intros Hv Hp He w'. subst w'.
  rewrite start_resume by (auto; apply totalDuration_positive_nonempty; lia).
  rewrite tick_continue.
  - fields. repeat split; auto.
    intros Hnil. apply app_eq_nil in Hnil. destruct Hnil; discriminate.
  - reflexivity.
  - unfold totalElapsedMs. fields. apply derive_inside; auto; lia.
Qed.

Lemma pause_running_facts (w : World) :
  isRunning (engine w) = true ->
  let w' := exec TimerEngine.pause w in
  isRunning (engine w') = false
  /\ isPaused (engine w') = true
  /\ startTime (engine w') = startTime (engine w)
  /\ pausedTime (engine w') = pausedTime (engine w)
  /\ pauseStartTime (engine w') = clock w
  /\ routine (engine w') = routine (engine w)
  /\ currentIntervalIndex (engine w') = currentIntervalIndex (engine w)
  /\ clock w' = clock w
  /\ log w'
     = log w ++ [OnTick (TimerEngine.computeState
                           (clock w) (pausedEngine (clock w) (engine w)))].
Proof.
  intros Hrun w'. subst w'.
  rewrite pause_running, cancelPending_exec, updateState_exec by exact Hrun.
  destruct w as [[st pt pst af r ix rn ps] c nf pf lg].
  destruct af; cbn; repeat split; reflexivity.
Qed.

(** ** Claims *)

(** C2.  Pause exclusion.  Start an engine that is not paused, let it run for
    [elapse running1] milliseconds, pause it, wait for [elapse paused]
    milliseconds, resume it with [start] and let it run for
    [elapse running2] milliseconds more (frame callbacks may fire at any of
    these moments, in any number); while the routine has not run out, the
    state reported by the next re-evaluation has [totalElapsed] equal to the
    floor of the two running times together, in seconds: within one second
    of their sum, and whatever the length of the pause. *)
Theorem pause_excluded_from_totalElapsed
        (w : World) (running1 paused running2 : list Action) :
  valid_routine (routine (engine w)) ->
  isPaused (engine w) = false ->
  Forall passing running1 -> Forall passing paused -> Forall passing running2 ->
  elapse running1 + elapse running2
  < 1000 * totalDurationOf (routine (engine w)) ->
  let w' := run (Start :: running1 ++ Pause :: paused
                       ++ Start :: running2 ++ [Frame]) w in
  exists st : TimerState.t,
    last (log w') OnComplete = OnTick st
    /\ TimerState.isRunning st = true
    /\ TimerState.totalElapsed st = (elapse running1 + elapse running2) / 1000
    /\ 1000 * TimerState.totalElapsed st <= elapse running1 + elapse running2
       < 1000 * TimerState.totalElapsed st + 1000.
Proof.
  intros Hv Hp H1 H2 H3 Hlt w'.
  pose proof (elapse_nonneg _ H1) as E1.
  pose proof (elapse_nonneg _ H2) as E2.
  pose proof (elapse_nonneg _ H3) as E3.
  subst w'. rewrite run_cons, run_app, run_cons, run_app, run_cons, run_app.
  cbn [perform].
  (* fresh start *)
  destruct (start_fresh_facts w Hv ltac:(lia) Hp)
    as (R1 & P1 & S1 & T1 & Q1 & C1 & F1).
  set (w1 := exec TimerEngine.start w) in *.
  (* first running phase *)
  assert (Z1 : totalElapsedMs w1 = 0) by (unfold totalElapsedMs; lia).
  destruct (passing_running running1 w1 H1 R1)
    as (R2 & (S2 & T2 & _ & Q2 & P2) & C2 & F2);
    try rewrite Q1; try rewrite Z1; auto; try lia.
  set (w2 := run running1 w1) in *.
  (* pause *)
  destruct (pause_running_facts w2 R2)
    as (R3 & P3 & S3 & T3 & U3 & Q3 & _ & C3 & _).
  set (w3 := exec TimerEngine.pause w2) in *.
  (* waiting *)
  destruct (passing_not_running paused w3 H2 R3) as (G4 & _ & C4 & _).
  set (w4 := run paused w3) in *.
  (* resume *)
  assert (Q4 : routine (engine w4) = routine (engine w)) by congruence.
  destruct (start_resume_facts w4)
    as (R5 & P5 & S5 & T5 & Q5 & C5 & F5);
    try rewrite G4; try rewrite Q3, Q2, Q1; auto; try lia.
  set (w5 := exec TimerEngine.start w4) in *.
  rewrite G4 in S5, T5.
  (* second running phase *)
  assert (Z5 : totalElapsedMs w5 = elapse running1)
    by (unfold totalElapsedMs; lia).
  assert (Q5' : routine (engine w5) = routine (engine w)) by congruence.
  destruct (passing_running running2 w5 H3 R5)
    as (R6 & (S6 & T6 & _ & Q6 & P6) & C6 & F6);
    try rewrite Q5'; try rewrite Z5; auto; try lia.
  set (w6 := run running2 w5) in *.
  (* the next re-evaluation *)
  assert (Z6 : totalElapsedMs w6 = elapse running1 + elapse running2)
    by (unfold totalElapsedMs; lia).
  assert (Q6' : routine (engine w6) = routine (engine w)) by congruence.
  assert (Hi : (TimerEngine.deriveIntervalIndex (routine (engine w6))
                  (totalElapsedMs w6) < length (routine (engine w6)))%nat).
  { rewrite Q6', Z6. apply derive_inside; auto; lia. }
  cbn [run fold_left]. rewrite (frame_running w6 R6 F6 Hi).
  cbn [log]. rewrite last_tickNotes.
  eexists. split; [reflexivity|].
  unfold TimerEngine.computeState. fields. cbn [TimerState.isRunning
    TimerState.totalElapsed]. rewrite R6.
  fold (totalElapsedMs w6). rewrite Z6.
  split; [reflexivity|]. split; [reflexivity|].
  pose proof (Z.div_mod (elapse running1 + elapse running2) 1000 ltac:(lia)).
  pose proof (Z.mod_pos_bound (elapse running1 + elapse running2) 1000
                              ltac:(lia)).
  lia.
Qed.

Lemma sampleRoutine_valid : valid_routine sampleRoutine.
Proof. repeat constructor; cbn; lia. Qed.

Lemma pause_excluded_witness :
  exists st : TimerState.t,
    last (log (run (Start :: [Advance 2500; Frame] ++ Pause :: [Advance 60000; Frame]
                          ++ Start :: [Frame; Advance 1700] ++ [Frame])
                   (run [SetRoutine sampleRoutine] (boot 1000))))
         OnComplete = OnTick st
    /\ TimerState.isRunning st = true
    /\ TimerState.totalElapsed st = (2500 + 1700) / 1000
    /\ 1000 * TimerState.totalElapsed st <= 2500 + 1700
       < 1000 * TimerState.totalElapsed st + 1000.
Proof.
  apply (pause_excluded_from_totalElapsed
           (run [SetRoutine sampleRoutine] (boot 1000))
           [Advance 2500; Frame] [Advance 60000; Frame] [Frame; Advance 1700]).
  - exact sampleRoutine_valid.
  - reflexivity.
  - repeat constructor; cbn; lia.
  - repeat constructor; cbn; lia.
  - repeat constructor; cbn; lia.
  - vm_compute. reflexivity.
Defined.

(** *** Boundary crossing on a routine of 5 and 10 seconds *)

Section Crossing.

Variables a b : Interval.
Hypothesis duration_a : duration a = 5.
Hypothesis duration_b : duration b = 10.

Lemma derive_first_interval (e : Z) :
  e < 5000 -> TimerEngine.deriveIntervalIndex [a; b] e = 0%nat.
Proof. intros H. apply deriveIntervalIndex_first. lia. Qed.

Lemma derive_second_interval (e : Z) :
  5000 <= e < 15000 -> TimerEngine.deriveIntervalIndex [a; b] e = 1%nat.
Proof.
  intros H. unfold TimerEngine.deriveIntervalIndex.
  cbn [TimerEngine.tickLoop]. rewrite duration_a, duration_b.
  destruct (Z.ltb_spec e (0 + 5 * 1000)); [lia|].
  destruct (Z.ltb_spec e (0 + 5 * 1000 + 10 * 1000)); [reflexivity|lia].
Qed.

Lemma crossing_frame (w : World) :
  crossing a b w ->
  crossing a b (exec (perform Frame) w)
  /\ totalElapsedMs (exec (perform Frame) w) = totalElapsedMs w
  /\ (totalElapsedMs w = 5000 ->
      currentIntervalIndex (engine (exec (perform Frame) w)) = 1%nat
      /\ intervalChanges (log (exec (perform Frame) w)) = [1%nat]).
Proof.
  intros (Hrun & Hr & He & Hpend & Hpos).
  assert (Hi : (TimerEngine.deriveIntervalIndex (routine (engine w))
                  (totalElapsedMs w) < length (routine (engine w)))%nat).
  { rewrite Hr. destruct (Z.lt_ge_cases (totalElapsedMs w) 5000).
    - rewrite derive_first_interval by lia. cbn. lia.
    - rewrite derive_second_interval by lia. cbn. lia. }
  rewrite (frame_running w Hrun Hpend Hi).
  unfold crossing, totalElapsedMs in *. fields.
  rewrite intervalChanges_app, intervalChanges_tickNotes. rewrite Hr.
  assert (Hp' : tl (pendingFrames w) ++ [nextFrame w] <> []).
  { intros Hnil. apply app_eq_nil in Hnil. destruct Hnil; discriminate. }
  destruct (Z.lt_ge_cases (clock w - startTime (engine w)
                           - pausedTime (engine w)) 5000) as [Hlt|Hge].
  - rewrite derive_first_interval by lia.
    destruct Hpos as [[Hix Hch]|[Hfive _]]; [|lia].
    rewrite Hix, Hch. cbn [Nat.eqb app].
    repeat split; auto; try lia.
  - rewrite derive_second_interval by lia.
    destruct Hpos as [[Hix Hch]|[Hfive [Hix Hch]]]; rewrite Hix, Hch;
      cbn [Nat.eqb app]; repeat split; auto; try lia;
      right; repeat split; auto; lia.
Qed.

Lemma crossing_advance (w : World) (dt : Z) :
  crossing a b w -> 0 <= dt -> totalElapsedMs w + dt <= 5000 ->
  crossing a b (exec (perform (Advance dt)) w).
Proof.
  intros (Hrun & Hr & He & Hpend & Hpos) Hdt Hle.
  rewrite advance_world. unfold crossing, totalElapsedMs in *. fields.
  repeat split; auto; try lia.
  destruct Hpos as [H|(Hfive & H)]; [left; exact H|].
  right. split; [lia|exact H].
Qed.

Lemma crossing_run (steps : list Action) :
  forall w : World,
    Forall passing steps -> crossing a b w ->
    totalElapsedMs w + elapse steps = 5000 ->
    crossing a b (run steps w) /\ totalElapsedMs (run steps w) = 5000.
Proof.
  induction steps as [|s steps IH]; intros w Hall Hc Hsum.
  - cbn in *. split; [exact Hc|lia].
  - inversion Hall as [|? ? Hs Hrest]; subst. rewrite run_cons.
    pose proof (elapse_nonneg steps Hrest) as Hnn.
    destruct s; cbn in Hs; try contradiction.
    + rewrite elapse_advance in Hsum.
      apply IH; auto.
      * apply crossing_advance; auto. lia.
      * rewrite advance_world. unfold totalElapsedMs in *. fields. lia.
    + rewrite elapse_frame in Hsum.
      destruct (crossing_frame w Hc) as (Hc' & He' & _).
      apply IH; auto. lia.
Qed.

Lemma crossing_start (t0 : Z) :
  let w' := run [SetRoutine [a; b]; Start] (boot t0) in
  crossing a b w' /\ totalElapsedMs w' = 0.
Proof.
  intros w'. subst w'. rewrite !run_cons. cbn [run fold_left perform].
  rewrite setRoutine_world.
  rewrite start_fresh by (fields; unfold loadedEngine; cbn; congruence).
  assert (Hz : forall c : Z, c - c - 0 = 0) by (intros; lia).
  rewrite tick_continue.
  - unfold crossing, totalElapsedMs, boot, loadedEngine. fields.
    rewrite Hz.
    rewrite derive_first_interval by lia.
    rewrite !intervalChanges_app, intervalChanges_tickNotes.
    fields. cbn [intervalChanges flat_map app Nat.eqb].
    repeat split; auto; try lia.
    intros Hnil. discriminate.
  - reflexivity.
  - unfold totalElapsedMs, boot, loadedEngine. fields. rewrite Hz.
    rewrite derive_first_interval by lia. cbn. lia.
Qed.

End Crossing.

Lemma inSpan_before_total (r : Routine) (j : nat) (ms : Z) :
  valid_routine r -> inSpan r j ms -> ms < 1000 * totalDurationOf r.
Proof.
  intros Hv H. unfold inSpan in H. rewrite <- cumulative_succ in H.
  pose proof (cumulative_le_total r (S j) Hv). lia.
Qed.

(** The loop of [tick] on a non-negative elapsed time.  A re-evaluation of
    a running engine with a routine of non-negative durations, at a
    non-negative elapsed time [now - startTime - pausedTime]: the index the
    loop derives is either the one interval whose half-open millisecond
    span holds the elapsed time, and it becomes the current index, or, when
    the elapsed time has reached the sum of all durations, the length of
    the routine, and the engine stops.  An elapsed time that sits exactly on
    the start of an interval of positive duration derives that interval.
    On a routine of 5 and 10 seconds, loaded and started, once the clock
    has moved on by 5000ms (in any number of steps, with frame callbacks
    firing at any of them) the next re-evaluation leaves the current index
    at 1, and the only interval-changed notification of the whole run
    carries 1. *)
Theorem derived_index_is_containing_interval
        (w : World) (a b : Interval) (t0 : Z) (steps : list Action) :
  isRunning (engine w) = true ->
  valid_routine (routine (engine w)) ->
  0 <= totalElapsedMs w ->
  duration a = 5 -> duration b = 10 ->
  Forall passing steps -> elapse steps = 5000 ->
  let r := routine (engine w) in
  let e := totalElapsedMs w in
  let i := TimerEngine.deriveIntervalIndex r e in
  let w' := exec TimerEngine.tick w in
  (((i < length r)%nat
    /\ inSpan r i e
    /\ (forall j : nat, inSpan r j e -> j = i)
    /\ currentIntervalIndex (engine w') = i
    /\ isRunning (engine w') = true)
   \/ (i = length r
       /\ 1000 * totalDurationOf r <= e
       /\ (forall j : nat, ~ inSpan r j e)
       /\ isRunning (engine w') = false))
  /\ (forall k : nat,
         0 < durationAt r k -> e = cumulativeDurationBefore r k -> i = k)
  /\ (let w1 := run (SetRoutine [a; b] :: Start :: steps ++ [Frame]) (boot t0) in
      currentIntervalIndex (engine w1) = 1%nat
      /\ intervalChanges (log w1) = [1%nat]).
Proof.
  intros Hrun Hv He Ha Hb Hsteps Hsum r e i w'.
  assert (Hcases :
    ((i < length r)%nat
     /\ inSpan r i e
     /\ (forall j : nat, inSpan r j e -> j = i)
     /\ currentIntervalIndex (engine w') = i
     /\ isRunning (engine w') = true)
    \/ (i = length r
        /\ 1000 * totalDurationOf r <= e
        /\ (forall j : nat, ~ inSpan r j e)
        /\ isRunning (engine w') = false)).
  { destruct (deriveIntervalIndex_spec r e Hv He) as [[Hlt Hin]|[Heq Hge]];
      fold i in Hlt || fold i in Heq.
    - left. split; [exact Hlt|]. split; [exact Hin|]. split.
      + intros j Hj. eapply inSpan_unique; eauto.
      + subst w'. rewrite tick_continue by assumption. fields.
        split; [reflexivity|exact Hrun].
    - right. split; [exact Heq|]. split; [exact Hge|]. split.
      + intros j Hj. pose proof (inSpan_before_total r j e Hv Hj). lia.
      + subst w'. rewrite tick_complete; [reflexivity|exact Hrun|].
        fold r e i. lia. }
  split; [exact Hcases|]. split.
  - intros k Hk Hek.
    assert (Hin : inSpan r k e) by (unfold inSpan; lia).
    destruct Hcases as [(_ & _ & Huniq & _)|(_ & _ & Hnone & _)].
    + symmetry. apply Huniq. exact Hin.
    + destruct (Hnone k Hin).
  - intros w1. subst w1.
    change (SetRoutine [a; b] :: Start :: steps ++ [Frame])
      with ([SetRoutine [a; b]; Start] ++ steps ++ [Frame]).
    rewrite !run_app.
    destruct (crossing_start a b Ha t0) as (Hc0 & Hz).
    destruct (crossing_run a b Ha Hb steps _ Hsteps Hc0 ltac:(lia))
      as (Hc1 & Hfive).
    destruct (crossing_frame a b Ha Hb _ Hc1) as (_ & _ & Hend).
    exact (Hend Hfive).
Qed.

Lemma derived_index_witness :
  let w := run [SetRoutine sampleRoutine; Start; Advance 15000] (boot 0) in
  let a := mkInterval "A" 5 work None in
  let b := mkInterval "B" 10 rest None in
  let steps := [Advance 1600; Frame; Advance 3400; Frame] in
  let r := routine (engine w) in
  let e := totalElapsedMs w in
  let i := TimerEngine.deriveIntervalIndex r e in
  let w' := exec TimerEngine.tick w in
  (((i < length r)%nat
    /\ inSpan r i e
    /\ (forall j : nat, inSpan r j e -> j = i)
    /\ currentIntervalIndex (engine w') = i
    /\ isRunning (engine w') = true)
   \/ (i = length r
       /\ 1000 * totalDurationOf r <= e
       /\ (forall j : nat, ~ inSpan r j e)
       /\ isRunning (engine w') = false))
  /\ (forall k : nat,
         0 < durationAt r k -> e = cumulativeDurationBefore r k -> i = k)
  /\ (let w1 := run (SetRoutine [a; b] :: Start :: steps ++ [Frame]) (boot 0) in
      currentIntervalIndex (engine w1) = 1%nat
      /\ intervalChanges (log w1) = [1%nat]).
Proof.
  apply (derived_index_is_containing_interval
           (run [SetRoutine sampleRoutine; Start; Advance 15000] (boot 0))
           (mkInterval "A" 5 work None) (mkInterval "B" 10 rest None) 0
           [Advance 1600; Frame; Advance 3400; Frame]).
  - reflexivity.
  - exact sampleRoutine_valid.
  - vm_compute. discriminate.
  - reflexivity.
  - reflexivity.
  - repeat constructor; cbn; lia.
  - reflexivity.
Defined.

(** C1.  A running re-evaluation at a negative elapsed time.  After start,
    pause at one second, [nextInterval] nineteen seconds later and
    [start], the engine runs with [now - startTime - pausedTime] 14 seconds
    below zero; 16ms on it is -13984.  The loop of the re-evaluation derives
    index 0 and the current index becomes 0, although no interval's span
    holds that elapsed time. *)
Theorem negative_elapsed_tick_derives_first_interval :
  let w := resumedAfterPausedMove in
  let r := routine (engine w) in
  isRunning (engine w) = true
  /\ r = sampleRoutine
  /\ totalElapsedMs w = -13984
  /\ TimerEngine.deriveIntervalIndex r (totalElapsedMs w) = 0%nat
  /\ currentIntervalIndex (engine (exec (perform Frame) w)) = 0%nat
  /\ isRunning (engine (exec (perform Frame) w)) = true
  /\ forall i : nat, ~ inSpan r i (totalElapsedMs w).
Proof.
  cbv zeta.
  assert (Hr : routine (engine resumedAfterPausedMove) = sampleRoutine)
    by (vm_compute; reflexivity).
  assert (He : totalElapsedMs resumedAfterPausedMove = -13984)
    by (vm_compute; reflexivity).
  split; [vm_compute; reflexivity|]. split; [exact Hr|].
  split; [exact He|]. split; [vm_compute; reflexivity|].
  split; [vm_compute; reflexivity|]. split; [vm_compute; reflexivity|].
  intros i Hin. rewrite Hr, He in Hin. unfold inSpan in Hin.
  pose proof (cumulative_nonneg sampleRoutine i sampleRoutine_valid). lia.
Qed.


(** *** The state notifications of one action *)

Lemma emitted_app (a : Action) (w : World) (news : list Notification) :
  log (exec (perform a) w) = log w ++ news -> emitted a w = news.
Proof.
  intros H. unfold emitted. rewrite H, skipn_app, skipn_all, Nat.sub_diag.
  reflexivity.
Qed.

Lemma tick_reports (w : World) :
  exists news : list Notification,
    log (exec TimerEngine.tick w) = log w ++ news
    /\ forall st, In (OnTick st) news ->
                  reportOf w (exec TimerEngine.tick w) st.
Proof.
  destruct (isRunning (engine w)) eqn:Hrun.
  - destruct (Nat.lt_ge_cases
                (TimerEngine.deriveIntervalIndex (routine (engine w))
                                                 (totalElapsedMs w))
                (length (routine (engine w)))) as [Hlt|Hge].
    + rewrite (tick_continue w Hrun Hlt). eexists. split; [reflexivity|].
      intros st Hin. unfold tickNotes in Hin. apply in_app_or in Hin.
      destruct Hin as [Hin|[Hin|[]]].
      * destruct (_ =? _)%nat; [destruct Hin|].
        destruct Hin as [Hin|[]]. discriminate.
      * inversion Hin; subst. eexists. split; [reflexivity|].
        split; reflexivity.
    + rewrite (tick_complete w Hrun Hge). eexists. split; [reflexivity|].
      intros st [Hin|[]]. discriminate.
  - rewrite (tick_not_running w Hrun). exists []. rewrite app_nil_r.
    split; [reflexivity|]. intros st [].
Qed.

Lemma reportOf_same_clock (w v w' : World) (st : TimerState.t) :
  clock v = clock w -> reportOf v w' st -> reportOf w w' st.
Proof. intros Hc (e' & H1 & H2). exists e'. rewrite <- Hc. auto. Qed.

Lemma tick_reports_from (w v : World) :
  clock v = clock w -> log v = log w ->
  exists news : list Notification,
    log (exec TimerEngine.tick v) = log w ++ news
    /\ forall st, In (OnTick st) news ->
                  reportOf w (exec TimerEngine.tick v) st.
Proof.
  intros Hc Hl. destruct (tick_reports v) as (news & Hlog & Hrep).
  exists news. rewrite Hlog, Hl. split; [reflexivity|].
  intros st Hin. eapply reportOf_same_clock; eauto.
Qed.

Lemma perform_reports (a : Action) (w : World) :
  exists news : list Notification,
    log (exec (perform a) w) = log w ++ news
    /\ forall st, In (OnTick st) news ->
                  reportOf w (exec (perform a) w) st.
Proof.
  destruct a; cbn [perform].
  - (* setRoutine *)
    rewrite setRoutine_world. eexists. split; [reflexivity|].
    intros st [Hin|[Hin|[]]]; inversion Hin; subst;
      (eexists; split; [reflexivity|split; reflexivity]).
  - (* start *)
    destruct (routine (engine w)) as [|x xs] eqn:Hr.
    + rewrite start_empty by exact Hr. exists []. rewrite app_nil_r.
      split; [reflexivity|]. intros st [].
    + destruct (isPaused (engine w)) eqn:Hp.
      * rewrite start_resume by congruence.
        apply tick_reports_from; reflexivity.
      * rewrite start_fresh by congruence.
        apply tick_reports_from; reflexivity.
  - (* pause *)
    destruct (isRunning (engine w)) eqn:Hrun.
    + destruct (pause_running_facts w Hrun)
        as (_ & _ & _ & _ & _ & Hr & Hix & _ & Hlog).
      eexists. split; [exact Hlog|].
      intros st [Hin|[]]. inversion Hin; subst.
      eexists. split; [reflexivity|]. rewrite Hr, Hix. split; reflexivity.
    + rewrite pause_not_running by exact Hrun. exists []. rewrite app_nil_r.
      split; [reflexivity|]. intros st [].
  - (* reset *)
    rewrite reset_world. eexists. split; [reflexivity|].
    intros st [Hin|[]]. inversion Hin; subst.
    eexists. split; [reflexivity|split; reflexivity].
  - (* nextInterval *)
    rewrite nextInterval_exec.
    destruct (_ <? _).
    + eexists. split; [reflexivity|].
      intros st [Hin|[Hin|[]]]; [|discriminate]. inversion Hin; subst.
      eexists. split; [reflexivity|split; reflexivity].
    + exists []. rewrite app_nil_r. split; [reflexivity|]. intros st [].
  - (* previousInterval *)
    rewrite previousInterval_exec.
    destruct (_ <? _)%nat.
    + eexists. split; [reflexivity|].
      intros st [Hin|[Hin|[]]]; [|discriminate]. inversion Hin; subst.
      eexists. split; [reflexivity|split; reflexivity].
    + exists []. rewrite app_nil_r. split; [reflexivity|]. intros st [].
  - (* destroy *)
    exists []. rewrite app_nil_r. split; [|intros st []].
    unfold exec, TimerEngine.destroy, bind, this.
    destruct (animationFrameId (engine w)); reflexivity.
  - (* the clock moves *)
    exists []. rewrite app_nil_r. split; [reflexivity|intros st []].
  - (* a frame callback *)
    destruct (pendingFrames w) as [|id later] eqn:Hpend.
    + rewrite frame_none by exact Hpend. exists []. rewrite app_nil_r.
      split; [reflexivity|intros st []].
    + change (bind frame) with (bind frame).
      replace (exec frame w) with
        (exec TimerEngine.tick
              (mkWorld (engine w) (clock w) (nextFrame w) later (log w)))
        by (symmetry; apply (frame_tick w id later Hpend)).
      apply tick_reports_from; reflexivity.
Qed.

Lemma ceil1000_bounds (x d : Z) :
  0 <= x <= 1000 * d -> 0 <= TimerEngine.ceil1000 x <= d.
Proof.
  intros H. unfold TimerEngine.ceil1000.
  pose proof (Z.div_mod (- x) 1000 ltac:(lia)).
  pose proof (Z.mod_pos_bound (- x) 1000 ltac:(lia)).
  lia.
Qed.

Lemma currentInterval_duration (e : Engine) :
  match TimerEngine.getCurrentInterval e with
  | Some i => duration i * 1000
  | None => 0
  end = 1000 * durationAt (routine e) (currentIntervalIndex e).
Proof.
  unfold TimerEngine.getCurrentInterval, durationAt.
  destruct (routine e) as [|x xs].
  - cbn. destruct (currentIntervalIndex e); reflexivity.
  - cbn [length Nat.ltb Nat.leb].
    destruct (nth_error (x :: xs) (currentIntervalIndex e)); lia.
Qed.

Lemma computeState_timeRemaining (now : Z) (e : Engine) :
  valid_routine (routine e) ->
  0 <= TimerState.timeRemaining (TimerEngine.computeState now e)
    <= durationAt (routine e) (currentIntervalIndex e).
Proof.
  intros Hv. unfold TimerEngine.computeState.
  cbn [TimerState.timeRemaining]. rewrite currentInterval_duration.
  pose proof (valid_durationAt (routine e) (currentIntervalIndex e) Hv).
  apply ceil1000_bounds. lia.
Qed.

Lemma computeState_index (now : Z) (e : Engine) :
  TimerState.currentIntervalIndex (TimerEngine.computeState now e)
  = currentIntervalIndex e.
Proof. reflexivity. Qed.

(** C3.  Whatever is done to the engine (a method call, a frame callback,
    the clock moving), in whatever state, every state notification it emits
    reports a [timeRemaining] between 0 and the duration in seconds of the
    interval it names as current, in the routine then held (0 when there is
    no such interval, as for the empty routine); the routine's durations
    are non-negative and their total in milliseconds is below 2^53. *)
Theorem timeRemaining_within_current_interval
        (a : Action) (w : World) (st : TimerState.t) :
  valid_routine (routine (engine (exec (perform a) w))) ->
  exactDurations (routine (engine (exec (perform a) w))) ->
  In (OnTick st) (emitted a w) ->
  0 <= TimerState.timeRemaining st
    <= durationAt (routine (engine (exec (perform a) w)))
                  (TimerState.currentIntervalIndex st).
Proof.
  intros Hv _ Hin.
  destruct (perform_reports a w) as (news & Hlog & Hrep).
  rewrite (emitted_app a w news Hlog) in Hin.
  destruct (Hrep st Hin) as (e' & Hst & Hr & Hix).
  subst st. rewrite computeState_index, <- Hr.
  apply computeState_timeRemaining. rewrite Hr. exact Hv.
Qed.

Lemma timeRemaining_witness :
  0 <= TimerState.timeRemaining (TimerState.mk true false 1 10 5 35)
    <= durationAt
         (routine (engine (exec (perform NextInterval)
                                (run [SetRoutine sampleRoutine; Start; Advance 1234]
                                     (boot 0)))))
         (TimerState.currentIntervalIndex (TimerState.mk true false 1 10 5 35)).
Proof.
  apply (timeRemaining_within_current_interval
           NextInterval
           (run [SetRoutine sampleRoutine; Start; Advance 1234] (boot 0))).
  - vm_compute. repeat constructor; discriminate.
  - vm_compute. reflexivity.
  - vm_compute. left. reflexivity.
Defined.

(** C4.  Navigating while paused and then resuming: load the sample routine,
    start, pause after one second, move to the next interval nineteen
    seconds later and resume.  The engine is running and the state it
    reports has [totalElapsed = -14], outside [0, totalDuration]. *)
Theorem totalElapsed_negative_after_paused_navigation :
  emitted Start
          (run [SetRoutine sampleRoutine; Start; Advance 1000; Pause;
                Advance 19000; NextInterval] (boot 0))
  = [OnIntervalChange 0; OnTick (TimerState.mk true false 0 5 (-14) 35)].
Proof. vm_compute. reflexivity. Qed.

(** *** Completion *)

Lemma destroy_world (w : World) :
  exec TimerEngine.destroy w
  = mkWorld (engine w) (clock w) (nextFrame w)
            (withoutFrame (animationFrameId (engine w)) (pendingFrames w))
            (log w).
Proof.
  unfold exec, TimerEngine.destroy, bind, this.
  destruct w as [[st pt pst af r ix rn ps] c nf pf lg]. destruct af; reflexivity.
Qed.

Lemma quiet_not_running (acts : list Action) :
  forall w : World,
    Forall quiet acts -> isRunning (engine w) = false ->
    engine (run acts w) = engine w /\ log (run acts w) = log w.
Proof.
  induction acts as [|a acts IH]; intros w Hall Hrun.
  - split; reflexivity.
  - inversion Hall as [|? ? Ha Hrest]; subst. rewrite run_cons.
    assert (Hstep : engine (exec (perform a) w) = engine w
                    /\ log (exec (perform a) w) = log w).
    { destruct a; cbn in Ha; try contradiction; cbn [perform].
      - rewrite pause_not_running by exact Hrun. split; reflexivity.
      - rewrite destroy_world. split; reflexivity.
      - split; reflexivity.
      - destruct (pendingFrames w) as [|id later] eqn:E.
        + rewrite frame_none by exact E. split; reflexivity.
        + rewrite (frame_tick w id later E), tick_not_running by exact Hrun.
          split; reflexivity. }
    destruct Hstep as (He & Hl).
    destruct (IH (exec (perform a) w) Hrest ltac:(congruence)) as (He' & Hl').
    split; congruence.
Qed.

Lemma completedWorld_completed :
  isRunning (engine completedWorld) = false
  /\ log completedWorld
     = [OnTick (TimerState.mk false false 0 3 0 3);
        OnTick (TimerState.mk false false 0 3 0 3);
        OnTick (TimerState.mk true false 0 3 0 3);
        OnComplete].
Proof. vm_compute. split; reflexivity. Qed.

Lemma start_after_completion_reports :
  ~ silentUntilReload completedWorld.
Proof.
  intros H. specialize (H [Start]).
  assert (Hok : Forall (fun a => a <> Reset /\ forall r, a <> SetRoutine r)
                       [Start]).
  { repeat constructor; intros; discriminate. }
  specialize (H Hok). vm_compute in H. discriminate.
Qed.

(** C5, amended.  When a re-evaluation of a running engine derives an index
    at or past the end of the routine, the engine stops running, exactly one
    completed notification and nothing else is emitted, and no frame is
    requested; from then on frame callbacks, the passing of time, [pause]
    and [destroy] emit nothing and leave the engine as it is. *)
Theorem completion_stops_the_loop (w : World) (acts : list Action) :
  isRunning (engine w) = true ->
  (length (routine (engine w))
   <= TimerEngine.deriveIntervalIndex (routine (engine w)) (totalElapsedMs w))%nat ->
  Forall quiet acts ->
  let w' := exec TimerEngine.tick w in
  isRunning (engine w') = false
  /\ log w' = log w ++ [OnComplete]
  /\ pendingFrames w' = pendingFrames w
  /\ nextFrame w' = nextFrame w
  /\ animationFrameId (engine w') = animationFrameId (engine w)
  /\ log (run acts w') = log w'
  /\ engine (run acts w') = engine w'.
Proof.
  intros Hrun Hend Hq w'. subst w'. rewrite (tick_complete w Hrun Hend).
  match goal with |- context [run acts ?x] => set (w' := x) end.
  assert (Hstop : isRunning (engine w') = false) by reflexivity.
  destruct (quiet_not_running acts w' Hq Hstop) as (He & Hl).
  repeat split; auto.
Qed.

Lemma completion_stops_witness :
  let w := run [SetRoutine threeSeconds; Start; Advance 3000] (boot 0) in
  let w' := exec TimerEngine.tick w in
  isRunning (engine w') = false
  /\ log w' = log w ++ [OnComplete]
  /\ pendingFrames w' = pendingFrames w
  /\ nextFrame w' = nextFrame w
  /\ animationFrameId (engine w') = animationFrameId (engine w)
  /\ log (run [Frame; Advance 500; Pause; Frame; Destroy] w') = log w'
  /\ engine (run [Frame; Advance 500; Pause; Frame; Destroy] w') = engine w'.
Proof.
  apply (completion_stops_the_loop
           (run [SetRoutine threeSeconds; Start; Advance 3000] (boot 0))
           [Frame; Advance 500; Pause; Frame; Destroy]).
  - reflexivity.
  - vm_compute. lia.
  - repeat constructor.
Defined.

(** *** Loading a routine *)

Lemma ceil1000_exact (d : Z) : TimerEngine.ceil1000 (1000 * d) = d.
Proof.
  unfold TimerEngine.ceil1000.
  replace (- (1000 * d)) with ((- d) * 1000) by lia.
  rewrite Z.div_mul by lia. lia.
Qed.

Lemma floor1000_exact (d : Z) : (1000 * d) / 1000 = d.
Proof. rewrite Z.mul_comm. apply Z.div_mul. lia. Qed.

Lemma computeState_loaded (now : Z) (r : Routine) :
  valid_routine r ->
  TimerEngine.computeState now (loadedEngine r) = loadedState r.
Proof.
  intros Hv. unfold TimerEngine.computeState, loadedState.
  rewrite currentInterval_duration.
  cbn [isRunning isPaused loadedEngine routine currentIntervalIndex].
  rewrite sumDurationsMs_slice0, cumulative_zero, sumDurationsMs_total.
  pose proof (valid_durationAt r 0 Hv) as Hd.
  replace (Z.max 0 (0 - 0)) with 0 by lia.
  replace (Z.max 0 (1000 * durationAt r 0 - 0)) with (1000 * durationAt r 0)
    by lia.
  rewrite ceil1000_exact, floor1000_exact. reflexivity.
Qed.

Lemma setRoutine_emits_two :
  ~ loadEmitsOneState sampleRoutine (boot 0).
Proof. intros [st H]. vm_compute in H. discriminate. Qed.

(** C6, amended.  Whatever the engine held and did before, [setRoutine r]
    leaves it holding [r] in the idle state (index 0, not running, not
    paused, all three timing anchors at zero, no frame handle) and emits
    two state notifications, one from [reset] and one of its own, both
    reporting index 0, the full duration of the first interval as time
    remaining (0 for the empty routine), zero elapsed, and the sum of the
    durations of [r] as total duration; the durations of [r] are
    non-negative and their total in milliseconds is below 2^53. *)
Theorem setRoutine_resets_and_reports_twice (r : Routine) (w : World) :
  valid_routine r ->
  exactDurations r ->
  let w' := exec (perform (SetRoutine r)) w in
  engine w' = loadedEngine r
  /\ routine (engine w') = r
  /\ currentIntervalIndex (engine w') = 0%nat
  /\ isRunning (engine w') = false
  /\ isPaused (engine w') = false
  /\ emitted (SetRoutine r) w = [OnTick (loadedState r); OnTick (loadedState r)]
  /\ TimerState.totalElapsed (loadedState r) = 0
  /\ TimerState.totalDuration (loadedState r) = totalDurationOf r
  /\ TimerState.timeRemaining (loadedState r) = durationAt r 0.
Proof.
  intros Hv _ w'. subst w'.
  assert (Hlog : log (exec (perform (SetRoutine r)) w)
                 = log w ++ [OnTick (loadedState r); OnTick (loadedState r)]).
  { cbn [perform]. rewrite setRoutine_world. cbn [log].
    rewrite computeState_loaded by exact Hv. reflexivity. }
  rewrite (emitted_app _ _ _ Hlog).
  cbn [perform]. rewrite setRoutine_world.
  repeat split; reflexivity.
Qed.

Lemma setRoutine_resets_witness :
  let w := run [SetRoutine threeSeconds; Start; Advance 700; NextInterval; Pause]
               (boot 5) in
  let w' := exec (perform (SetRoutine sampleRoutine)) w in
  engine w' = loadedEngine sampleRoutine
  /\ routine (engine w') = sampleRoutine
  /\ currentIntervalIndex (engine w') = 0%nat
  /\ isRunning (engine w') = false
  /\ isPaused (engine w') = false
  /\ emitted (SetRoutine sampleRoutine) w
     = [OnTick (loadedState sampleRoutine); OnTick (loadedState sampleRoutine)]
  /\ TimerState.totalElapsed (loadedState sampleRoutine) = 0
  /\ TimerState.totalDuration (loadedState sampleRoutine)
     = totalDurationOf sampleRoutine
  /\ TimerState.timeRemaining (loadedState sampleRoutine)
     = durationAt sampleRoutine 0.
Proof.
  apply (setRoutine_resets_and_reports_twice
           sampleRoutine
           (run [SetRoutine threeSeconds; Start; Advance 700; NextInterval; Pause]
                (boot 5))).
  - exact sampleRoutine_valid.
  - vm_compute. reflexivity.
Defined.

(** *** The empty routine *)

Lemma startOrMove_empty (a : Action) (w : World) :
  startOrMove a ->
  routine (engine w) = [] -> currentIntervalIndex (engine w) = 0%nat ->
  exec (perform a) w = w.
Proof.
  intros Ha Hr Hix. destruct a; cbn in Ha; try contradiction; cbn [perform].
  - apply start_empty. exact Hr.
  - rewrite nextInterval_exec, Hr, Hix. reflexivity.
  - rewrite previousInterval_exec, Hix. reflexivity.
Qed.

(** C9.  After [setRoutine []], whatever came before, the engine is at the
    empty defaults and reports them (index 0, not running, not paused, zero
    time remaining, zero elapsed, zero total duration); any sequence of
    [start], [nextInterval] and [previousInterval] calls then leaves the
    whole world as it is, emitting nothing, and [getCurrentInterval] is
    null after each of them.  (The model is total: none of the calls can
    fail.) *)
Theorem empty_routine_operations_are_noops (w : World) (acts : list Action) :
  Forall startOrMove acts ->
  let w0 := exec (perform (SetRoutine [])) w in
  engine w0 = TimerEngine.new
  /\ last (log w0) OnComplete = OnTick (TimerState.mk false false 0 0 0 0)
  /\ run acts w0 = w0
  /\ TimerEngine.getCurrentInterval (engine (run acts w0)) = None.
Proof.
  intros Hacts w0.
  assert (He : engine w0 = TimerEngine.new).
  { subst w0. cbn [perform]. rewrite setRoutine_world. reflexivity. }
  assert (Hrun : run acts w0 = w0).
  { clear - Hacts He. induction Hacts as [|a acts Ha _ IH].
    - reflexivity.
    - rewrite run_cons, startOrMove_empty; auto; rewrite He; reflexivity. }
  split; [exact He|]. split.
  - subst w0. cbn [perform]. rewrite setRoutine_world. cbn [log].
    change [OnTick (TimerEngine.computeState (clock w) (loadedEngine []));
            OnTick (TimerEngine.computeState (clock w) (loadedEngine []))]
      with ([OnTick (TimerEngine.computeState (clock w) (loadedEngine []))]
              ++ [OnTick (TimerEngine.computeState (clock w) (loadedEngine []))]).
    rewrite app_assoc, last_last. reflexivity.
  - split; [exact Hrun|]. rewrite Hrun, He. reflexivity.
Qed.

Lemma empty_routine_witness :
  let w0 := exec (perform (SetRoutine []))
                 (run [SetRoutine sampleRoutine; Start; NextInterval] (boot 0)) in
  engine w0 = TimerEngine.new
  /\ last (log w0) OnComplete = OnTick (TimerState.mk false false 0 0 0 0)
  /\ run [Start; NextInterval; PreviousInterval; Start] w0 = w0
  /\ TimerEngine.getCurrentInterval
       (engine (run [Start; NextInterval; PreviousInterval; Start] w0)) = None.
Proof.
  apply (empty_routine_operations_are_noops
           (run [SetRoutine sampleRoutine; Start; NextInterval] (boot 0))
           [Start; NextInterval; PreviousInterval; Start]).
  repeat constructor.
Defined.

(** *** Navigation *)

Lemma movedWorld_movedTo (a : Action) (k : nat) (w : World) :
  exec (perform a) w = movedWorld k w -> movedTo a k w (movedWorld k w).
Proof.
  intros Hw. unfold movedTo.
  split; [reflexivity|]. split.
  { unfold movedWorld, movedEngine. fields.
    rewrite sumDurationsMs_slice0. reflexivity. }
  split; [reflexivity|]. split; [reflexivity|].
  split; [reflexivity|]. split; [reflexivity|].
  eexists. split; [|split; [|split]].
  - apply emitted_app. rewrite Hw. reflexivity.
  - reflexivity.
  - intros Hrun. split.
    + unfold totalElapsedMs, movedWorld, movedEngine. fields.
      rewrite sumDurationsMs_slice0. lia.
    + unfold TimerEngine.computeState.
      cbn [TimerState.totalElapsed]. unfold movedEngine. fields.
      rewrite Hrun, sumDurationsMs_slice0.
      unfold cumulativeDurationBefore.
      replace (clock w - (clock w - 1000 * totalDurationOf (firstn k (routine (engine w)))) - 0)
        with (1000 * totalDurationOf (firstn k (routine (engine w)))) by lia.
      apply floor1000_exact.
  - intros Hrun Hp. unfold TimerEngine.computeState.
    cbn [TimerState.totalElapsed]. unfold movedEngine. fields.
    rewrite Hrun, Hp. reflexivity.
Qed.

(** On an engine that was never started [nextInterval] moves to interval 1
    and reports it with zero elapsed time, not the five seconds of the
    interval before it: [updateState] reads the anchors only while running
    or paused. *)
Lemma idle_move_reports_zero_elapsed :
  ~ moveCountsEarlierAsPlayed NextInterval 1 idleWorld.
Proof.
  intros H.
  specialize (H (TimerState.mk false false 1 10 0 35)).
  assert (Hin : In (OnTick (TimerState.mk false false 1 10 0 35))
                   (emitted NextInterval idleWorld))
    by (vm_compute; left; reflexivity).
  specialize (H Hin). vm_compute in H. discriminate.
Qed.

(** C7, amended.  On a non-empty routine (durations non-negative, total
    below 2^53 ms) with the current index inside it, [nextInterval] moves
    the index to [min (i + 1) (length - 1)] and [previousInterval] to
    [i - 1] cut off at 0; at the last and at the first interval
    respectively the call changes nothing at all.  A call that moves, to
    [k], sets the start instant to now minus the milliseconds of the
    intervals before [k] and the paused duration to zero, leaves the
    routine and the running and paused flags as they are and emits a state
    notification naming [k] and an interval-changed notification carrying
    [k].  On a running engine the elapsed time is then the sum of the
    durations before [k], in [now - startTime - pausedTime] and in the
    reported state; on an idle engine the reported elapsed time stays 0.
    What a paused engine reports after the move is not stated. *)
Theorem navigation_moves_and_reanchors (w : World) :
  routine (engine w) <> [] ->
  (currentIntervalIndex (engine w) < length (routine (engine w)))%nat ->
  valid_routine (routine (engine w)) ->
  exactDurations (routine (engine w)) ->
  let i := currentIntervalIndex (engine w) in
  let n := length (routine (engine w)) in
  let wn := exec (perform NextInterval) w in
  let wp := exec (perform PreviousInterval) w in
  currentIntervalIndex (engine wn) = Nat.min (i + 1) (n - 1)
  /\ currentIntervalIndex (engine wp) = (i - 1)%nat
  /\ (i = (n - 1)%nat -> wn = w)
  /\ (i = 0%nat -> wp = w)
  /\ ((i + 1 < n)%nat -> movedTo NextInterval (i + 1) w wn)
  /\ ((0 < i)%nat -> movedTo PreviousInterval (i - 1) w wp).
Proof.
  intros Hne Hin _ _ i n wn wp.
  assert (Hn : wn = if Z.of_nat i <? Z.of_nat n - 1
                    then movedWorld (i + 1) w else w).
  { subst wn. cbn [perform]. apply nextInterval_exec. }
  assert (Hp : wp = if (0 <? i)%nat then movedWorld (i - 1) w else w).
  { subst wp. cbn [perform]. apply previousInterval_exec. }
  split; [|split; [|split; [|split; [|split]]]].
  - rewrite Hn. destruct (Z.ltb_spec (Z.of_nat i) (Z.of_nat n - 1)).
    + cbn. lia.
    + fold i. lia.
  - rewrite Hp. destruct (Nat.ltb_spec 0 i).
    + cbn. lia.
    + fold i. lia.
  - intros Hlast. rewrite Hn.
    destruct (Z.ltb_spec (Z.of_nat i) (Z.of_nat n - 1)); [lia|reflexivity].
  - intros Hfirst. rewrite Hp.
    destruct (Nat.ltb_spec 0 i); [lia|reflexivity].
  - intros Hlt.
    destruct (Z.ltb_spec (Z.of_nat i) (Z.of_nat n - 1)); [|lia].
    rewrite Hn. apply movedWorld_movedTo. rewrite <- Hn. reflexivity.
  - intros Hpos.
    destruct (Nat.ltb_spec 0 i); [|lia].
    rewrite Hp. apply movedWorld_movedTo. rewrite <- Hp. reflexivity.
Qed.

Lemma navigation_witness :
  let w := run [SetRoutine sampleRoutine; Start; Advance 2000; NextInterval]
               (boot 0) in
  let i := currentIntervalIndex (engine w) in
  let n := length (routine (engine w)) in
  let wn := exec (perform NextInterval) w in
  let wp := exec (perform PreviousInterval) w in
  currentIntervalIndex (engine wn) = Nat.min (i + 1) (n - 1)
  /\ currentIntervalIndex (engine wp) = (i - 1)%nat
  /\ (i = (n - 1)%nat -> wn = w)
  /\ (i = 0%nat -> wp = w)
  /\ ((i + 1 < n)%nat -> movedTo NextInterval (i + 1) w wn)
  /\ ((0 < i)%nat -> movedTo PreviousInterval (i - 1) w wp).
Proof.
  apply (navigation_moves_and_reanchors
           (run [SetRoutine sampleRoutine; Start; Advance 2000; NextInterval]
                (boot 0))).
  - vm_compute. discriminate.
  - vm_compute. lia.
  - vm_compute. repeat constructor; discriminate.
  - vm_compute. reflexivity.
Defined.

(** *** After completion *)

Lemma start_after_completion_runs :
  ~ terminalUntilReload completedWorld.
Proof.
  intros H. specialize (H [Start]).
  assert (Hok : Forall (fun a => a <> Reset /\ forall r, a <> SetRoutine r)
                       [Start]).
  { repeat constructor; intros; discriminate. }
  specialize (H Hok). vm_compute in H. discriminate.
Qed.

Lemma not_start_not_running (a : Action) (w : World) :
  a <> Start -> isRunning (engine w) = false ->
  isRunning (engine (exec (perform a) w)) = false.
Proof.
  intros Ha Hrun. destruct a; try congruence; cbn [perform].
  - rewrite setRoutine_world. reflexivity.
  - rewrite pause_not_running by exact Hrun. exact Hrun.
  - rewrite reset_world. reflexivity.
  - rewrite nextInterval_exec. destruct (_ <? _); [exact Hrun|exact Hrun].
  - rewrite previousInterval_exec. destruct (_ <? _)%nat; exact Hrun.
  - rewrite destroy_world. exact Hrun.
  - exact Hrun.
  - destruct (pendingFrames w) as [|id later] eqn:E.
    + rewrite frame_none by exact E. exact Hrun.
    + rewrite (frame_tick w id later E), tick_not_running; exact Hrun.
Qed.

Lemma without_start_not_running (acts : list Action) :
  forall w : World,
    Forall (fun a => a <> Start) acts -> isRunning (engine w) = false ->
    isRunning (engine (run acts w)) = false.
Proof.
  induction acts as [|a acts IH]; intros w Hall Hrun.
  - exact Hrun.
  - inversion Hall; subst. rewrite run_cons. apply IH; auto.
    apply not_start_not_running; auto.
Qed.

Lemma derive_zero_elapsed (r : Routine) :
  0 < durationAt r 0 -> TimerEngine.deriveIntervalIndex r 0 = 0%nat.
Proof.
  intros H. destruct r as [|x xs].
  - cbn in H. lia.
  - apply deriveIntervalIndex_first. unfold durationAt in H. cbn in H. lia.
Qed.

(** What a fresh [start] leaves and emits when the first interval has a
    positive duration. *)
Lemma fresh_start_world (w : World) :
  isPaused (engine w) = false ->
  0 < durationAt (routine (engine w)) 0 ->
  exec TimerEngine.start w
  = mkWorld (set_animationFrameId (Some (nextFrame w))
               (set_currentIntervalIndex 0%nat
                  (set_isRunning true
                     (set_pausedTime 0
                        (set_startTime (clock w) (engine w))))))
            (clock w) (Pos.succ (nextFrame w))
            (pendingFrames w ++ [nextFrame w])
            (log w ++ tickNotes (clock w)
                                (set_isRunning true
                                   (set_pausedTime 0
                                      (set_startTime (clock w) (engine w))))
                                0%nat).
Proof.
  intros Hp Hd.
  assert (Hne : routine (engine w) <> []).
  { intros E. rewrite E in Hd. cbn in Hd. lia. }
  assert (Hz : forall c : Z, c - c - 0 = 0) by (intros; lia).
  rewrite start_fresh by assumption.
  rewrite tick_continue; unfold totalElapsedMs; fields; rewrite ?Hz;
    rewrite ?derive_zero_elapsed by exact Hd.
  - reflexivity.
  - reflexivity.
  - destruct (routine (engine w)); [congruence|cbn; lia].
Qed.

(** C8, amended.  A re-evaluation that completes the routine leaves the
    engine neither running nor paused, and it stays not running under every
    sequence of actions without [start]; [reset] and [setRoutine] put it in
    the idle state at index 0.  [start] is not held back: it takes the
    fresh-start branch, the engine runs again with the start instant at now
    and no paused time, at interval 0 (of positive duration). *)
Theorem completed_until_reset_load_or_start
        (w : World) (acts : list Action) (r' : Routine) :
  isRunning (engine w) = true ->
  isPaused (engine w) = false ->
  0 < durationAt (routine (engine w)) 0 ->
  (length (routine (engine w))
   <= TimerEngine.deriveIntervalIndex (routine (engine w)) (totalElapsedMs w))%nat ->
  Forall (fun a => a <> Start) acts ->
  let w' := exec TimerEngine.tick w in
  isRunning (engine w') = false
  /\ isPaused (engine w') = false
  /\ isRunning (engine (run acts w')) = false
  /\ engine (exec (perform Reset) w') = loadedEngine (routine (engine w))
  /\ engine (exec (perform (SetRoutine r')) w') = loadedEngine r'
  /\ (let ws := exec (perform Start) w' in
      isRunning (engine ws) = true
      /\ isPaused (engine ws) = false
      /\ startTime (engine ws) = clock w
      /\ pausedTime (engine ws) = 0
      /\ totalElapsedMs ws = 0
      /\ currentIntervalIndex (engine ws) = 0%nat).
Proof.
  intros Hrun Hp Hd Hend Hacts w'. subst w'.
  rewrite (tick_complete w Hrun Hend).
  match goal with |- context [run acts ?x] => set (w' := x) end.
  assert (Hstop : isRunning (engine w') = false) by reflexivity.
  split; [exact Hstop|]. split; [exact Hp|]. split.
  { apply without_start_not_running; assumption. }
  split.
  { cbn [perform]. rewrite reset_world. reflexivity. }
  split.
  { cbn [perform]. rewrite setRoutine_world. reflexivity. }
  cbn [perform]. rewrite fresh_start_world; [|exact Hp|exact Hd].
  unfold totalElapsedMs. subst w'. fields.
  repeat split; try reflexivity; try exact Hp; lia.
Qed.

Lemma completed_witness :
  let w := run [SetRoutine threeSeconds; Start; Advance 3000] (boot 0) in
  let w' := exec TimerEngine.tick w in
  isRunning (engine w') = false
  /\ isPaused (engine w') = false
  /\ isRunning (engine (run [Pause; Frame; PreviousInterval; Reset] w')) = false
  /\ engine (exec (perform Reset) w') = loadedEngine (routine (engine w))
  /\ engine (exec (perform (SetRoutine sampleRoutine)) w')
     = loadedEngine sampleRoutine
  /\ (let ws := exec (perform Start) w' in
      isRunning (engine ws) = true
      /\ isPaused (engine ws) = false
      /\ startTime (engine ws) = clock w
      /\ pausedTime (engine ws) = 0
      /\ totalElapsedMs ws = 0
      /\ currentIntervalIndex (engine ws) = 0%nat).
Proof.
  apply (completed_until_reset_load_or_start
           (run [SetRoutine threeSeconds; Start; Advance 3000] (boot 0))
           [Pause; Frame; PreviousInterval; Reset] sampleRoutine).
  - reflexivity.
  - reflexivity.
  - vm_compute. reflexivity.
  - vm_compute. lia.
  - repeat constructor; discriminate.
Defined.

(** *** [start] on a running engine *)

Lemma restart_moves_index_back :
  ~ restartKeepsIndex secondIntervalWorld.
Proof.
  intros H.
  assert (Hne : routine (engine secondIntervalWorld) <> [])
    by (vm_compute; discriminate).
  specialize (H eq_refl eq_refl Hne). vm_compute in H. discriminate.
Qed.

(** C10, amended.  [start] on a running, unpaused engine whose first
    interval has a positive duration takes the fresh-start branch: the
    start instant becomes now, the paused duration zero, the engine keeps
    running.  The call re-evaluates at once, with zero elapsed time: the
    current index becomes 0 before the call returns, with an
    interval-changed notification carrying 0 when it was not 0 already,
    then a state notification reporting zero elapsed; and one more frame
    is requested, the one requested before staying scheduled. *)
Theorem restart_while_running (w : World) :
  isRunning (engine w) = true ->
  isPaused (engine w) = false ->
  0 < durationAt (routine (engine w)) 0 ->
  let w' := exec (perform Start) w in
  startTime (engine w') = clock w
  /\ pausedTime (engine w') = 0
  /\ isRunning (engine w') = true
  /\ isPaused (engine w') = false
  /\ currentIntervalIndex (engine w') = 0%nat
  /\ pendingFrames w' = pendingFrames w ++ [nextFrame w]
  /\ exists st : TimerState.t,
       emitted Start w
       = (if (0 =? currentIntervalIndex (engine w))%nat
          then [] else [OnIntervalChange 0]) ++ [OnTick st]
       /\ TimerState.isRunning st = true
       /\ TimerState.currentIntervalIndex st = 0%nat
       /\ TimerState.totalElapsed st = 0.
Proof.
  intros Hrun Hp Hd w'. subst w'. cbn [perform].
  rewrite (fresh_start_world w Hp Hd). fields.
  repeat split; try reflexivity; try exact Hp.
  eexists. split.
  - apply emitted_app. cbn [perform].
    rewrite (fresh_start_world w Hp Hd). reflexivity.
  - unfold TimerEngine.computeState. fields.
    cbn [TimerState.isRunning TimerState.currentIntervalIndex
         TimerState.totalElapsed].
    repeat split; try reflexivity.
    replace (clock w - clock w - 0) with 0 by lia. reflexivity.
Qed.

Lemma restart_witness :
  let w := secondIntervalWorld in
  let w' := exec (perform Start) w in
  startTime (engine w') = clock w
  /\ pausedTime (engine w') = 0
  /\ isRunning (engine w') = true
  /\ isPaused (engine w') = false
  /\ currentIntervalIndex (engine w') = 0%nat
  /\ pendingFrames w' = pendingFrames w ++ [nextFrame w]
  /\ exists st : TimerState.t,
       emitted Start w
       = (if (0 =? currentIntervalIndex (engine w))%nat
          then [] else [OnIntervalChange 0]) ++ [OnTick st]
       /\ TimerState.isRunning st = true
       /\ TimerState.currentIntervalIndex st = 0%nat
       /\ TimerState.totalElapsed st = 0.
Proof.
  apply (restart_while_running secondIntervalWorld).
  - reflexivity.
  - reflexivity.
  - vm_compute. reflexivity.
Defined.

(** ** Reachable worlds *)

Lemma tick_wellFormed (w : World) :
  wellFormed (engine w) -> wellFormed (engine (exec TimerEngine.tick w)).
Proof.
  intros (Hflags & Hix). destruct (isRunning (engine w)) eqn:Hrun.
  - destruct (Nat.lt_ge_cases
                (TimerEngine.deriveIntervalIndex (routine (engine w))
                                                 (totalElapsedMs w))
                (length (routine (engine w)))) as [Hlt|Hge].
    + rewrite (tick_continue w Hrun Hlt). unfold wellFormed. fields.
      split; [intros _; auto|lia].
    + rewrite (tick_complete w Hrun Hge). unfold wellFormed. fields.
      split; [discriminate|exact Hix].
  - rewrite (tick_not_running w Hrun). split; [rewrite Hrun; discriminate|exact Hix].
Qed.

Lemma perform_wellFormed (a : Action) (w : World) :
  wellFormed (engine w) -> wellFormed (engine (exec (perform a) w)).
Proof.
  intros Hwf. pose proof Hwf as (Hflags & Hix).
  destruct a; cbn [perform].
  - rewrite setRoutine_world. unfold wellFormed, loadedEngine. fields.
    split; [discriminate|lia].
  - destruct (routine (engine w)) as [|x xs] eqn:Hr.
    + rewrite start_empty by exact Hr. exact Hwf.
    + destruct (isPaused (engine w)) eqn:Hp.
      * rewrite start_resume by congruence. apply tick_wellFormed.
        unfold wellFormed. fields. rewrite Hr.
        split; [reflexivity|exact Hix].
      * rewrite start_fresh by congruence. apply tick_wellFormed.
        unfold wellFormed. fields. rewrite Hr.
        split; [intros _; exact Hp|exact Hix].
  - destruct (isRunning (engine w)) eqn:Hrun.
    + destruct (pause_running_facts w Hrun)
        as (R & _ & _ & _ & _ & Hr & Hi & _).
      unfold wellFormed. rewrite R, Hr, Hi. split; [discriminate|exact Hix].
    + rewrite pause_not_running by exact Hrun. exact Hwf.
  - rewrite reset_world. unfold wellFormed, loadedEngine. fields.
    split; [discriminate|lia].
  - rewrite nextInterval_exec.
    destruct (Z.ltb_spec (Z.of_nat (currentIntervalIndex (engine w)))
                         (Z.of_nat (length (routine (engine w))) - 1));
      [|exact Hwf].
    unfold wellFormed, movedWorld, movedEngine. fields.
    split; [exact Hflags|lia].
  - rewrite previousInterval_exec.
    destruct (Nat.ltb_spec 0 (currentIntervalIndex (engine w))); [|exact Hwf].
    unfold wellFormed, movedWorld, movedEngine. fields.
    split; [exact Hflags|lia].
  - rewrite destroy_world. exact Hwf.
  - exact Hwf.
  - destruct (pendingFrames w) as [|id later] eqn:E.
    + rewrite frame_none by exact E. exact Hwf.
    + rewrite (frame_tick w id later E). apply tick_wellFormed. exact Hwf.
Qed.

Lemma reachable_wellFormed (acts : list Action) (t0 : Z) :
  wellFormed (engine (run acts (boot t0))).
Proof.
  assert (H : forall w, wellFormed (engine w) -> wellFormed (engine (run acts w))).
  { induction acts as [|a acts IH]; intros w Hw.
    - exact Hw.
    - rewrite run_cons. apply IH. apply perform_wellFormed. exact Hw. }
  apply H. split; [discriminate|cbn; lia].
Qed.

Lemma reachable_index_in_range (acts : list Action) (t0 : Z) :
  let e := engine (run acts (boot t0)) in
  routine e <> [] -> (currentIntervalIndex e < length (routine e))%nat.
Proof.
  intros e Hne. destruct (reachable_wellFormed acts t0) as (_ & Hix).
  fold e in Hix. destruct (routine e); [congruence|cbn in *; lia].
Qed.

Lemma reachable_running_not_paused (acts : list Action) (t0 : Z) :
  let e := engine (run acts (boot t0)) in
  isRunning e = true -> isPaused e = false.
Proof. intros e. exact (proj1 (reachable_wellFormed acts t0)). Qed.

(** ** Further properties of the engine *)

(** X1.  In every world reached from a new engine by method calls, clock
    steps and frame callbacks, the current index is inside a non-empty
    routine and [getCurrentInterval] returns the interval at that index;
    on the empty routine the index is 0 and [getCurrentInterval] is null. *)
Theorem reachable_current_interval (acts : list Action) (t0 : Z) :
  let e := engine (run acts (boot t0)) in
  (routine e <> [] ->
   (currentIntervalIndex e < length (routine e))%nat
   /\ exists itv : Interval,
        TimerEngine.getCurrentInterval e = Some itv
        /\ nth_error (routine e) (currentIntervalIndex e) = Some itv)
  /\ (routine e = [] ->
      currentIntervalIndex e = 0%nat
      /\ TimerEngine.getCurrentInterval e = None).
Proof.
  intros e. destruct (reachable_wellFormed acts t0) as (_ & Hix). fold e in Hix.
  split.
  - intros Hne.
    assert (Hlt : (currentIntervalIndex e < length (routine e))%nat).
    { destruct (routine e); [congruence|cbn in *; lia]. }
    split; [exact Hlt|].
    destruct (nth_error (routine e) (currentIntervalIndex e)) as [itv|] eqn:E.
    + exists itv. split; [|reflexivity].
      unfold TimerEngine.getCurrentInterval.
      destruct (Nat.ltb_spec 0 (length (routine e))); [exact E|lia].
    + apply nth_error_None in E. lia.
  - intros Hnil. rewrite Hnil in Hix. cbn in Hix.
    split; [lia|]. unfold TimerEngine.getCurrentInterval. rewrite Hnil.
    reflexivity.
Qed.

Lemma reachable_current_interval_witness :
  let e := engine (run [SetRoutine sampleRoutine; Start; NextInterval;
                        Advance 700; Frame; Pause] (boot 0)) in
  (currentIntervalIndex e < length (routine e))%nat
  /\ exists itv : Interval,
       TimerEngine.getCurrentInterval e = Some itv
       /\ nth_error (routine e) (currentIntervalIndex e) = Some itv.
Proof.
  apply (proj1 (reachable_current_interval
                  [SetRoutine sampleRoutine; Start; NextInterval;
                   Advance 700; Frame; Pause] 0)).
  vm_compute. discriminate.
Defined.

(** X2.  In every reachable world the engine is never running and paused
    at once. *)
Theorem reachable_never_running_and_paused (acts : list Action) (t0 : Z) :
  let e := engine (run acts (boot t0)) in
  ~ (isRunning e = true /\ isPaused e = true).
Proof.
  intros e [Hr Hp]. destruct (reachable_wellFormed acts t0) as (Hflags & _).
  fold e in Hflags. rewrite (Hflags Hr) in Hp. discriminate.
Qed.

(** X3.  [pause] is idempotent: a second call right after the first does
    nothing, in particular it emits no second state notification. *)
Theorem pause_idempotent (w : World) :
  exec TimerEngine.pause (exec TimerEngine.pause w) = exec TimerEngine.pause w.
Proof.
  apply pause_not_running.
  destruct (isRunning (engine w)) eqn:Hrun.
  - destruct (pause_running_facts w Hrun) as (R & _). exact R.
  - rewrite pause_not_running by exact Hrun. exact Hrun.
Qed.

Lemma computeState_not_running (now now' : Z) (e : Engine) :
  isRunning e = false ->
  TimerEngine.computeState now e = TimerEngine.computeState now' e.
Proof. intros H. unfold TimerEngine.computeState. rewrite H. reflexivity. Qed.

Lemma clockOrFrame_not_running (steps : list Action) :
  forall w : World,
    Forall clockOrFrame steps -> isRunning (engine w) = false ->
    engine (run steps w) = engine w /\ log (run steps w) = log w.
Proof.
  intros w Hall. apply quiet_not_running.
  eapply Forall_impl; [|exact Hall].
  intros a Ha. destruct a; cbn in *; auto.
Qed.

(** X4.  An engine that is not running (idle, paused or completed) does not
    age: however the clock moves and whichever frame callbacks still fire,
    nothing is emitted, no field of the engine changes, and the state it
    would report is the same at every later instant. *)
Theorem not_running_is_frozen (w : World) (steps : list Action) :
  isRunning (engine w) = false ->
  Forall clockOrFrame steps ->
  engine (run steps w) = engine w
  /\ emittedBy steps w = []
  /\ TimerEngine.computeState (clock (run steps w)) (engine (run steps w))
     = TimerEngine.computeState (clock w) (engine w).
Proof.
  intros Hrun Hsteps.
  destruct (clockOrFrame_not_running steps w Hsteps Hrun) as (He & Hl).
  split; [exact He|]. split.
  - unfold emittedBy. rewrite Hl. apply skipn_all.
  - rewrite He. apply computeState_not_running. exact Hrun.
Qed.

Lemma not_running_is_frozen_witness :
  let w := run [SetRoutine sampleRoutine; Start; Advance 2500; Frame; Pause]
               (boot 0) in
  let steps := [Frame; Advance 60000; Frame; Advance (-5); Frame] in
  engine (run steps w) = engine w
  /\ emittedBy steps w = []
  /\ TimerEngine.computeState (clock (run steps w)) (engine (run steps w))
     = TimerEngine.computeState (clock w) (engine w).
Proof.
  apply (not_running_is_frozen
           (run [SetRoutine sampleRoutine; Start; Advance 2500; Frame; Pause]
                (boot 0))
           [Frame; Advance 60000; Frame; Advance (-5); Frame]).
  - reflexivity.
  - repeat constructor.
Defined.

Lemma withoutFrame_notScheduled (h : option positive) (pending : list positive) :
  notScheduled h (withoutFrame h pending).
Proof.
  destruct h as [id|]; cbn; [|exact I].
  intros Hin. apply filter_In in Hin. destruct Hin as [_ Hneq].
  rewrite Pos.eqb_refl in Hneq. discriminate.
Qed.

Lemma withoutFrame_idempotent (h : option positive) (pending : list positive) :
  withoutFrame h (withoutFrame h pending) = withoutFrame h pending.
Proof.
  destruct h as [id|]; cbn; [|reflexivity].
  induction pending as [|x xs IH]; cbn; [reflexivity|].
  destruct (negb (x =? id)%positive) eqn:E; cbn; rewrite ?E, IH; reflexivity.
Qed.

(** X5.  [reset], from any state: the engine keeps its routine and is back
    at index 0, not running, not paused, with all three timing anchors at
    zero and no frame handle; the frame it had requested last is no longer
    scheduled; exactly one state notification is emitted, which for a
    routine of non-negative durations with a total below 2^53 ms shows
    index 0, the first interval's full duration as time remaining, zero
    elapsed and the routine's total duration. *)
Theorem reset_from_any_state (w : World) :
  valid_routine (routine (engine w)) ->
  exactDurations (routine (engine w)) ->
  let w' := exec (perform Reset) w in
  engine w' = loadedEngine (routine (engine w))
  /\ notScheduled (animationFrameId (engine w)) (pendingFrames w')
  /\ emitted Reset w = [OnTick (loadedState (routine (engine w)))]
  /\ clock w' = clock w.
Proof.
  intros Hv _ w'. subst w'.
  assert (Hlog : log (exec (perform Reset) w)
                 = log w ++ [OnTick (loadedState (routine (engine w)))]).
  { cbn [perform]. rewrite reset_world. cbn [log].
    rewrite computeState_loaded by exact Hv. reflexivity. }
  rewrite (emitted_app _ _ _ Hlog). cbn [perform]. rewrite reset_world.
  cbn [engine pendingFrames clock].
  split; [reflexivity|]. split; [apply withoutFrame_notScheduled|].
  split; reflexivity.
Qed.

Lemma reset_from_any_state_witness :
  let w := run [SetRoutine sampleRoutine; Start; Advance 7000; Frame;
                NextInterval; Pause] (boot 0) in
  let w' := exec (perform Reset) w in
  engine w' = loadedEngine (routine (engine w))
  /\ notScheduled (animationFrameId (engine w)) (pendingFrames w')
  /\ emitted Reset w = [OnTick (loadedState (routine (engine w)))]
  /\ clock w' = clock w.
Proof.
  apply (reset_from_any_state
           (run [SetRoutine sampleRoutine; Start; Advance 7000; Frame;
                 NextInterval; Pause] (boot 0))).
  - vm_compute. repeat constructor; discriminate.
  - vm_compute. reflexivity.
Defined.

(** X6.  [destroy] cancels the frame the engine requested last and nothing
    else: the engine (its running flag included), the clock and the log are
    as before, and a second [destroy] changes nothing more. *)
Theorem destroy_only_cancels (w : World) :
  let w' := exec (perform Destroy) w in
  engine w' = engine w
  /\ log w' = log w
  /\ clock w' = clock w
  /\ notScheduled (animationFrameId (engine w)) (pendingFrames w')
  /\ exec (perform Destroy) w' = w'.
Proof.
  intros w'. subst w'. cbn [perform]. rewrite !destroy_world.
  cbn [engine log clock pendingFrames nextFrame].
  rewrite withoutFrame_idempotent.
  repeat split. apply withoutFrame_notScheduled.
Qed.

(** *** The derived index as a function of the elapsed time *)

Lemma tickLoop_ge (e : Z) (todo : Routine) :
  forall (i : nat) (acc : Z),
    (i <= TimerEngine.tickLoop e todo i acc i)%nat.
Proof.
  induction todo as [|x xs IH]; intros i acc; cbn [TimerEngine.tickLoop].
  - lia.
  - destruct (e <? acc + duration x * 1000); [lia|].
    specialize (IH (S i) (acc + duration x * 1000)). lia.
Qed.

Lemma tickLoop_monotone (e e' : Z) (todo : Routine) :
  e <= e' ->
  forall (i : nat) (acc : Z),
    (TimerEngine.tickLoop e todo i acc i
     <= TimerEngine.tickLoop e' todo i acc i)%nat.
Proof.
  intros Hle. induction todo as [|x xs IH]; intros i acc;
    cbn [TimerEngine.tickLoop].
  - lia.
  - destruct (Z.ltb_spec e (acc + duration x * 1000)) as [Hlt|Hge].
    + destruct (e' <? acc + duration x * 1000); [lia|].
      pose proof (tickLoop_ge e' xs (S i) (acc + duration x * 1000)). lia.
    + destruct (Z.ltb_spec e' (acc + duration x * 1000)); [lia|].
      apply IH.
Qed.

(** X7.  The index the loop of [tick] derives never decreases when the
    elapsed time grows, whatever the durations are. *)
Theorem deriveIntervalIndex_monotone (r : Routine) (e e' : Z) :
  e <= e' ->
  (TimerEngine.deriveIntervalIndex r e <= TimerEngine.deriveIntervalIndex r e')%nat.
Proof.
  intros Hle. unfold TimerEngine.deriveIntervalIndex.
  apply tickLoop_monotone. exact Hle.
Qed.

Lemma deriveIntervalIndex_monotone_witness :
  (TimerEngine.deriveIntervalIndex sampleRoutine 4999
   <= TimerEngine.deriveIntervalIndex sampleRoutine 15000)%nat.
Proof. apply (deriveIntervalIndex_monotone sampleRoutine 4999 15000). lia. Defined.

(** *** Navigation, composed *)

(** X8.  [getNextInterval] previews [nextInterval]: when there is a
    successor, [getNextInterval] returns it and after [nextInterval] it is
    what [getCurrentInterval] returns; at the last interval (and on the
    empty routine) [getNextInterval] is null and [nextInterval] changes
    nothing. *)
Theorem getNextInterval_previews_nextInterval (w : World) :
  let e := engine w in
  let i := currentIntervalIndex e in
  let n := length (routine e) in
  ((i + 1 < n)%nat ->
   exists itv : Interval,
     TimerEngine.getNextInterval e = Some itv
     /\ TimerEngine.getCurrentInterval (engine (exec (perform NextInterval) w))
        = Some itv)
  /\ ((n <= i + 1)%nat ->
      TimerEngine.getNextInterval e = None
      /\ exec (perform NextInterval) w = w).
Proof.
  intros e i n. cbn [perform]. rewrite nextInterval_exec. fold e i n. split.
  - intros Hlt.
    destruct (Z.ltb_spec (Z.of_nat i) (Z.of_nat n - 1)); [|lia].
    destruct (nth_error (routine e) (i + 1)) as [itv|] eqn:E.
    + exists itv. unfold TimerEngine.getNextInterval, TimerEngine.getCurrentInterval.
      fold i n. unfold movedWorld, movedEngine. fields. fold e. fold n.
      destruct (Nat.ltb_spec (i + 1) n); [|lia].
      destruct (Nat.ltb_spec 0 n); [|lia].
      split; exact E.
    + apply nth_error_None in E. fold n in E. lia.
  - intros Hge.
    destruct (Z.ltb_spec (Z.of_nat i) (Z.of_nat n - 1)); [lia|].
    split; [|reflexivity].
    unfold TimerEngine.getNextInterval. fold i n.
    destruct (Nat.ltb_spec (i + 1) n); [lia|reflexivity].
Qed.

Lemma getNextInterval_previews_witness :
  let w := run [SetRoutine sampleRoutine; Start; Advance 6000; Frame] (boot 0) in
  exists itv : Interval,
    TimerEngine.getNextInterval (engine w) = Some itv
    /\ TimerEngine.getCurrentInterval (engine (exec (perform NextInterval) w))
       = Some itv.
Proof.
  apply (proj1 (getNextInterval_previews_nextInterval
                  (run [SetRoutine sampleRoutine; Start; Advance 6000; Frame]
                       (boot 0)))).
  vm_compute. lia.
Defined.

(** X9.  [nextInterval] and [previousInterval] undo each other's move of
    the index: away from the last interval, next-then-previous ends at the
    index it started from, and away from the first, previous-then-next
    does; each of the two calls reports its own change of interval. *)
Theorem next_and_previous_are_inverse (w : World) :
  let i := currentIntervalIndex (engine w) in
  let n := length (routine (engine w)) in
  ((i + 1 < n)%nat ->
   currentIntervalIndex (engine (run [NextInterval; PreviousInterval] w)) = i
   /\ intervalChanges (emittedBy [NextInterval; PreviousInterval] w)
      = [(i + 1)%nat; i])
  /\ ((0 < i < n)%nat ->
      currentIntervalIndex (engine (run [PreviousInterval; NextInterval] w)) = i
      /\ intervalChanges (emittedBy [PreviousInterval; NextInterval] w)
         = [(i - 1)%nat; i]).
Proof.
  intros i n. unfold emittedBy. rewrite !run_cons. cbn [run fold_left perform].
  split.
  - intros Hlt. rewrite nextInterval_exec. fold i n.
    destruct (Z.ltb_spec (Z.of_nat i) (Z.of_nat n - 1)); [|lia].
    rewrite previousInterval_exec.
    replace (currentIntervalIndex (engine (movedWorld (i + 1) w)))
      with (i + 1)%nat by reflexivity.
    destruct (Nat.ltb_spec 0 (i + 1)); [|lia].
    unfold movedWorld at 1 3. cbn [engine log]. unfold movedEngine at 1.
    fields. split; [lia|].
    unfold movedWorld. cbn [log]. rewrite <- app_assoc.
    rewrite skipn_app, skipn_all, Nat.sub_diag. cbn.
    replace (i + 1 - 1)%nat with i by lia. reflexivity.
  - intros Hin. rewrite previousInterval_exec. fold i n.
    destruct (Nat.ltb_spec 0 i); [|lia].
    rewrite nextInterval_exec.
    replace (currentIntervalIndex (engine (movedWorld (i - 1) w)))
      with (i - 1)%nat by reflexivity.
    replace (length (routine (engine (movedWorld (i - 1) w)))) with n
      by reflexivity.
    destruct (Z.ltb_spec (Z.of_nat (i - 1)) (Z.of_nat n - 1)); [|lia].
    unfold movedWorld at 1 3. cbn [engine log]. unfold movedEngine at 1.
    fields. split; [lia|].
    unfold movedWorld. cbn [log]. rewrite <- app_assoc.
    rewrite skipn_app, skipn_all, Nat.sub_diag. cbn.
    replace (i - 1 + 1)%nat with i by lia. reflexivity.
Qed.

Lemma next_and_previous_witness :
  let w := run [SetRoutine sampleRoutine; Start; NextInterval; Advance 300]
               (boot 0) in
  let i := currentIntervalIndex (engine w) in
  (currentIntervalIndex (engine (run [NextInterval; PreviousInterval] w)) = i
   /\ intervalChanges (emittedBy [NextInterval; PreviousInterval] w)
      = [(i + 1)%nat; i])
  /\ (currentIntervalIndex (engine (run [PreviousInterval; NextInterval] w)) = i
      /\ intervalChanges (emittedBy [PreviousInterval; NextInterval] w)
         = [(i - 1)%nat; i]).
Proof.
  split.
  - apply (proj1 (next_and_previous_are_inverse
                    (run [SetRoutine sampleRoutine; Start; NextInterval;
                          Advance 300] (boot 0)))).
    vm_compute. lia.
  - apply (proj2 (next_and_previous_are_inverse
                    (run [SetRoutine sampleRoutine; Start; NextInterval;
                          Advance 300] (boot 0)))).
    vm_compute. lia.
Defined.

(** *** Bounds on what a running engine reports *)

Lemma derive_inside_bound (r : Routine) (e : Z) :
  valid_routine r ->
  (TimerEngine.deriveIntervalIndex r e < length r)%nat ->
  e < 1000 * totalDurationOf r.
Proof.
  intros Hv Hlt. pose proof (totalDurationOf_nonneg r Hv) as Hnn.
  destruct (Z.lt_ge_cases e 0) as [Hneg|Hpos]; [lia|].
  destruct (deriveIntervalIndex_spec r e Hv Hpos) as [[_ Hin]|[Heq _]].
  - eapply inSpan_before_total; eauto.
  - lia.
Qed.

Lemma tick_bounded_reports (w v : World) :
  clock v = clock w -> log v = log w ->
  exists news : list Notification,
    log (exec TimerEngine.tick v) = log w ++ news
    /\ forall st, In (OnTick st) news ->
                  boundedReport w (exec TimerEngine.tick v) st.
Proof.
  intros Hc Hl. destruct (isRunning (engine v)) eqn:Hrun.
  - destruct (Nat.lt_ge_cases
                (TimerEngine.deriveIntervalIndex (routine (engine v))
                                                 (totalElapsedMs v))
                (length (routine (engine v)))) as [Hlt|Hge].
    + rewrite (tick_continue v Hrun Hlt). cbn [log]. rewrite Hl.
      eexists. split; [reflexivity|].
      intros st Hin. unfold tickNotes in Hin. apply in_app_or in Hin.
      destruct Hin as [Hin|[Hin|[]]].
      * destruct (_ =? _)%nat; [destruct Hin|].
        destruct Hin as [Hin|[]]. discriminate.
      * inversion Hin; subst. eexists. rewrite <- Hc.
        split; [reflexivity|]. split; [reflexivity|].
        fields. intros Hv _. fold (totalElapsedMs v).
        pose proof (derive_inside_bound _ _ Hv Hlt). lia.
    + rewrite (tick_complete v Hrun Hge). cbn [log]. rewrite Hl.
      eexists. split; [reflexivity|].
      intros st [Hin|[]]. discriminate.
  - rewrite (tick_not_running v Hrun). exists []. rewrite app_nil_r.
    split; [exact Hl|]. intros st [].
Qed.

Lemma moved_bounded_report (k : nat) (w : World) (st : TimerState.t) :
  In (OnTick st)
     [OnTick (TimerEngine.computeState
                (clock w) (movedEngine (clock w) k (engine w)));
      OnIntervalChange k] ->
  boundedReport w (movedWorld k w) st.
Proof.
  intros [Hin|[Hin|[]]]; [|discriminate]. inversion Hin; subst.
  eexists. split; [reflexivity|]. split; [reflexivity|].
  unfold movedEngine. fields. intros Hv _. rewrite sumDurationsMs_slice0.
  pose proof (cumulative_le_total (routine (engine w)) k Hv). lia.
Qed.

Lemma perform_bounded_reports (a : Action) (w : World) :
  exists news : list Notification,
    log (exec (perform a) w) = log w ++ news
    /\ forall st, In (OnTick st) news ->
                  boundedReport w (exec (perform a) w) st.
Proof.
  destruct a; cbn [perform].
  - rewrite setRoutine_world. eexists. split; [reflexivity|].
    intros st [Hin|[Hin|[]]]; inversion Hin; subst;
      (eexists; split; [reflexivity|split; [reflexivity|]];
       intros _ Hrun; discriminate Hrun).
  - destruct (routine (engine w)) as [|x xs] eqn:Hr.
    + rewrite start_empty by exact Hr. exists []. rewrite app_nil_r.
      split; [reflexivity|]. intros st [].
    + destruct (isPaused (engine w)) eqn:Hp.
      * rewrite start_resume by congruence.
        apply tick_bounded_reports; reflexivity.
      * rewrite start_fresh by congruence.
        apply tick_bounded_reports; reflexivity.
  - destruct (isRunning (engine w)) eqn:Hrun.
    + destruct (pause_running_facts w Hrun)
        as (_ & _ & _ & _ & _ & Hr & _ & _ & Hlog).
      eexists. split; [exact Hlog|].
      intros st [Hin|[]]. inversion Hin; subst.
      eexists. split; [reflexivity|]. rewrite Hr.
      split; [reflexivity|]. intros _ Hrun'. discriminate Hrun'.
    + rewrite pause_not_running by exact Hrun. exists []. rewrite app_nil_r.
      split; [reflexivity|]. intros st [].
  - rewrite reset_world. eexists. split; [reflexivity|].
    intros st [Hin|[]]. inversion Hin; subst.
    eexists. split; [reflexivity|]. split; [reflexivity|].
    intros _ Hrun. discriminate Hrun.
  - rewrite nextInterval_exec. destruct (_ <? _).
    + eexists. split; [reflexivity|]. apply moved_bounded_report.
    + exists []. rewrite app_nil_r. split; [reflexivity|]. intros st [].
  - rewrite previousInterval_exec. destruct (_ <? _)%nat.
    + eexists. split; [reflexivity|]. apply moved_bounded_report.
    + exists []. rewrite app_nil_r. split; [reflexivity|]. intros st [].
  - rewrite destroy_world. exists []. rewrite app_nil_r.
    split; [reflexivity|intros st []].
  - exists []. rewrite app_nil_r. split; [reflexivity|intros st []].
  - destruct (pendingFrames w) as [|id later] eqn:Hpend.
    + rewrite frame_none by exact Hpend. exists []. rewrite app_nil_r.
      split; [reflexivity|intros st []].
    + rewrite (frame_tick w id later Hpend).
      apply tick_bounded_reports; reflexivity.
Qed.

Lemma floor1000_le (x t : Z) : x <= 1000 * t -> x / 1000 <= t.
Proof.
  intros H. rewrite <- (floor1000_exact t). apply Z.div_le_mono; lia.
Qed.

(** X10.  Whatever is done to the engine, in whatever state, every state
    notification it emits reports as [totalDuration] the sum of the
    durations of the routine then held, and, when it reports the engine as
    running, a [totalElapsed] that does not exceed it (durations
    non-negative, their total below 2^53 ms). *)
Theorem running_totalElapsed_at_most_totalDuration
        (a : Action) (w : World) (st : TimerState.t) :
  valid_routine (routine (engine (exec (perform a) w))) ->
  exactDurations (routine (engine (exec (perform a) w))) ->
  In (OnTick st) (emitted a w) ->
  TimerState.totalDuration st
  = totalDurationOf (routine (engine (exec (perform a) w)))
  /\ (TimerState.isRunning st = true ->
      TimerState.totalElapsed st <= TimerState.totalDuration st).
Proof.
  intros Hv _ Hin.
  destruct (perform_bounded_reports a w) as (news & Hlog & Hrep).
  rewrite (emitted_app a w news Hlog) in Hin.
  destruct (Hrep st Hin) as (e' & Hst & Hr & Hbound). subst st.
  unfold TimerEngine.computeState.
  cbn [TimerState.totalDuration TimerState.isRunning TimerState.totalElapsed].
  rewrite sumDurationsMs_total, floor1000_exact, Hr.
  split; [reflexivity|]. intros Hrun. rewrite Hrun.
  apply floor1000_le. rewrite <- Hr. apply Hbound; [rewrite Hr; exact Hv|exact Hrun].
Qed.

Lemma running_totalElapsed_witness :
  TimerState.totalDuration (TimerState.mk true false 1 3 12 35)
  = totalDurationOf
      (routine (engine (exec (perform Frame)
                             (run [SetRoutine sampleRoutine; Start; Advance 12345]
                                  (boot 0)))))
  /\ (TimerState.isRunning (TimerState.mk true false 1 3 12 35) = true ->
      TimerState.totalElapsed (TimerState.mk true false 1 3 12 35)
      <= TimerState.totalDuration (TimerState.mk true false 1 3 12 35)).
Proof.
  apply (running_totalElapsed_at_most_totalDuration
           Frame
           (run [SetRoutine sampleRoutine; Start; Advance 12345] (boot 0))).
  - vm_compute. repeat constructor; discriminate.
  - vm_compute. reflexivity.
  - vm_compute. right. left. reflexivity.
Defined.

Lemma ceil1000_positive (x : Z) : 0 < x -> 1 <= TimerEngine.ceil1000 x.
Proof.
  intros H. unfold TimerEngine.ceil1000.
  pose proof (Z.div_mod (- x) 1000 ltac:(lia)).
  pose proof (Z.mod_pos_bound (- x) 1000 ltac:(lia)).
  lia.
Qed.

(** X11.  A re-evaluation that finds the elapsed time [e] inside the
    routine (durations non-negative with a total below 2^53 ms, [0 <= e]
    below the total) ends with a
    state notification for the derived interval [i] whose [timeRemaining]
    is the ceiling, in seconds, of the milliseconds left to the end of that
    interval: at least 1, at most the interval's duration, and exactly the
    duration when [e] is the instant the interval starts; [totalElapsed]
    is the floor of [e] in seconds. *)
Theorem tick_reports_time_left (w : World) :
  isRunning (engine w) = true ->
  valid_routine (routine (engine w)) ->
  exactDurations (routine (engine w)) ->
  0 <= totalElapsedMs w < 1000 * totalDurationOf (routine (engine w)) ->
  let r := routine (engine w) in
  let e := totalElapsedMs w in
  let i := TimerEngine.deriveIntervalIndex r e in
  exists st : TimerState.t,
    last (log (exec TimerEngine.tick w)) OnComplete = OnTick st
    /\ TimerState.currentIntervalIndex st = i
    /\ TimerState.timeRemaining st
       = TimerEngine.ceil1000 (cumulativeDurationBefore r (S i) - e)
    /\ 1 <= TimerState.timeRemaining st <= durationAt r i
    /\ (e = cumulativeDurationBefore r i ->
        TimerState.timeRemaining st = durationAt r i)
    /\ TimerState.totalElapsed st = e / 1000.
Proof.
  intros Hrun Hv _ He r e i.
  assert (He0 : 0 <= e) by (unfold e; lia).
  assert (He1 : e < 1000 * totalDurationOf r) by (unfold e, r; lia).
  destruct (deriveIntervalIndex_spec r e Hv He0) as [[Hlt Hin]|[_ Hge]];
    [|lia].
  fold i in Hlt, Hin.
  rewrite (tick_continue w Hrun Hlt). cbn [log]. rewrite last_tickNotes.
  fold r e i. eexists. split; [reflexivity|].
  unfold TimerEngine.computeState.
  cbn [TimerState.currentIntervalIndex TimerState.timeRemaining
       TimerState.totalElapsed].
  rewrite currentInterval_duration. fields. rewrite Hrun.
  rewrite sumDurationsMs_slice0. fold (totalElapsedMs w). fold r e.
  unfold inSpan in Hin. rewrite cumulative_succ.
  replace (Z.max 0 (e - cumulativeDurationBefore r i))
    with (e - cumulativeDurationBefore r i) by lia.
  replace (Z.max 0 (1000 * durationAt r i - (e - cumulativeDurationBefore r i)))
    with (cumulativeDurationBefore r i + 1000 * durationAt r i - e) by lia.
  split; [reflexivity|]. split; [reflexivity|]. split; [|split].
  - split.
    + apply ceil1000_positive. lia.
    + apply ceil1000_bounds. lia.
  - intros Heq.
    replace (cumulativeDurationBefore r i + 1000 * durationAt r i - e)
      with (1000 * durationAt r i) by lia.
    apply ceil1000_exact.
  - reflexivity.
Qed.

Lemma tick_reports_time_left_witness :
  let w := run [SetRoutine sampleRoutine; Start; Advance 5000] (boot 0) in
  let r := routine (engine w) in
  let e := totalElapsedMs w in
  let i := TimerEngine.deriveIntervalIndex r e in
  exists st : TimerState.t,
    last (log (exec TimerEngine.tick w)) OnComplete = OnTick st
    /\ TimerState.currentIntervalIndex st = i
    /\ TimerState.timeRemaining st
       = TimerEngine.ceil1000 (cumulativeDurationBefore r (S i) - e)
    /\ 1 <= TimerState.timeRemaining st <= durationAt r i
    /\ (e = cumulativeDurationBefore r i ->
        TimerState.timeRemaining st = durationAt r i)
    /\ TimerState.totalElapsed st = e / 1000.
Proof.
  apply (tick_reports_time_left
           (run [SetRoutine sampleRoutine; Start; Advance 5000] (boot 0))).
  - reflexivity.
  - exact sampleRoutine_valid.
  - vm_compute. reflexivity.
  - vm_compute. split; [discriminate|reflexivity].
Defined.

(** *** A running engine left to itself only moves forward *)

Lemma run_log_grows (acts : list Action) :
  forall w : World, exists news, log (run acts w) = log w ++ news.
Proof.
  induction acts as [|a acts IH]; intros w.
  - exists []. rewrite app_nil_r. reflexivity.
  - rewrite run_cons. destruct (IH (exec (perform a) w)) as (n2 & H2).
    destruct (perform_reports a w) as (n1 & H1 & _).
    exists (n1 ++ n2). rewrite H2, H1, app_assoc. reflexivity.
Qed.

Lemma emittedBy_app (acts : list Action) (w : World) (news : list Notification) :
  log (run acts w) = log w ++ news -> emittedBy acts w = news.
Proof.
  intros H. unfold emittedBy. rewrite H, skipn_app, skipn_all, Nat.sub_diag.
  reflexivity.
Qed.

Lemma emittedBy_cons (a : Action) (acts : list Action) (w : World)
      (news : list Notification) :
  log (exec (perform a) w) = log w ++ news ->
  emittedBy (a :: acts) w = news ++ emittedBy acts (exec (perform a) w).
Proof.
  intros H. destruct (run_log_grows acts (exec (perform a) w)) as (n2 & H2).
  rewrite (emittedBy_app acts _ n2 H2).
  apply emittedBy_app. rewrite run_cons, H2, H, app_assoc. reflexivity.
Qed.

Lemma passing_clockOrFrame (steps : list Action) :
  Forall passing steps -> Forall clockOrFrame steps.
Proof.
  intros H. eapply Forall_impl; [|exact H].
  intros a Ha. destruct a; cbn in *; auto.
Qed.

(** X12.  Left to itself with a clock that does not go back (only clock
    steps and frame callbacks, no method call), an engine whose current
    index is not ahead of the elapsed time never moves to an earlier
    interval: the interval-changed notifications it emits carry strictly
    increasing indices, all above the index it started from, and the index
    it ends with is not below that one. *)
Theorem ticks_only_move_forward (steps : list Action) :
  forall w : World,
    Forall passing steps ->
    (isRunning (engine w) = true ->
     (currentIntervalIndex (engine w)
      <= TimerEngine.deriveIntervalIndex (routine (engine w))
                                         (totalElapsedMs w))%nat) ->
    (currentIntervalIndex (engine w)
     <= currentIntervalIndex (engine (run steps w)))%nat
    /\ Sorted lt (currentIntervalIndex (engine w)
                           :: intervalChanges (emittedBy steps w)).
Proof.
  induction steps as [|s steps IH]; intros w Hall Hinv.
  - split; [cbn; lia|]. unfold emittedBy. cbn [run fold_left].
    rewrite skipn_all. cbn. repeat constructor.
  - inversion Hall as [|? ? Hs Hrest]; subst.
    destruct (isRunning (engine w)) eqn:Hrun.
    2:{ destruct (clockOrFrame_not_running (s :: steps) w
                    (passing_clockOrFrame _ Hall) Hrun) as (He & Hl).
        rewrite He. split; [lia|].
        unfold emittedBy. rewrite Hl, skipn_all. cbn. repeat constructor. }
    specialize (Hinv eq_refl).
    destruct s; cbn in Hs; try contradiction.
    + (* the clock moves on *)
      rewrite (emittedBy_cons (Advance dt) steps w []), run_cons
        by (rewrite app_nil_r; reflexivity).
      cbn [app]. rewrite advance_world.
      apply (IH (mkWorld (engine w) (clock w + dt) (nextFrame w)
                         (pendingFrames w) (log w)) Hrest).
      intros _. fields. etransitivity; [exact Hinv|].
      unfold TimerEngine.deriveIntervalIndex. apply tickLoop_monotone.
      unfold totalElapsedMs. fields. lia.
    + (* a frame callback *)
      destruct (pendingFrames w) as [|id later] eqn:Hpend.
      * rewrite (emittedBy_cons Frame steps w []), run_cons
          by (cbn [perform]; rewrite frame_none by exact Hpend;
              rewrite app_nil_r; reflexivity).
        cbn [perform app]. rewrite frame_none by exact Hpend.
        apply IH; [exact Hrest|]. intros _. exact Hinv.
      * set (v := mkWorld (engine w) (clock w) (nextFrame w) later (log w)).
        assert (Hv : exec (perform Frame) w = exec TimerEngine.tick v)
          by (apply (frame_tick w id later Hpend)).
        assert (Hrunv : isRunning (engine v) = true) by exact Hrun.
        destruct (Nat.lt_ge_cases
                    (TimerEngine.deriveIntervalIndex (routine (engine v))
                                                     (totalElapsedMs v))
                    (length (routine (engine v)))) as [Hlt|Hge].
        -- (* still inside the routine *)
           pose proof (tick_continue v Hrunv Hlt) as Ht.
           set (i := TimerEngine.deriveIntervalIndex (routine (engine v))
                                                     (totalElapsedMs v)) in *.
           rewrite (emittedBy_cons Frame steps w (tickNotes (clock v) (engine v) i))
             by (rewrite Hv, Ht; reflexivity).
           rewrite run_cons, Hv, Ht.
           match goal with |- context [run steps ?x] => set (w1 := x) end.
           destruct (IH w1 Hrest) as (Hix & Hsorted).
           { intros _. subst w1. unfold totalElapsedMs. fields.
             fold (totalElapsedMs v). fold i. lia. }
           replace (currentIntervalIndex (engine w1)) with i in * by reflexivity.
           assert (Hge : (currentIntervalIndex (engine w) <= i)%nat) by exact Hinv.
           split; [lia|].
           rewrite intervalChanges_app, intervalChanges_tickNotes.
           change (currentIntervalIndex (engine v))
             with (currentIntervalIndex (engine w)).
           destruct (Nat.eqb_spec i (currentIntervalIndex (engine w))) as [Heq|Hne].
           ++ cbn [app]. rewrite <- Heq. exact Hsorted.
           ++ cbn [app]. constructor; [exact Hsorted|]. constructor. lia.
        -- (* the routine completes *)
           pose proof (tick_complete v Hrunv Hge) as Ht.
           rewrite (emittedBy_cons Frame steps w [OnComplete])
             by (rewrite Hv, Ht; reflexivity).
           rewrite run_cons, Hv, Ht.
           match goal with |- context [run steps ?x] => set (w1 := x) end.
           destruct (clockOrFrame_not_running steps w1
                       (passing_clockOrFrame _ Hrest) eq_refl) as (He & Hl).
           rewrite He. split; [cbn; lia|].
           unfold emittedBy. rewrite Hl, skipn_all. cbn. repeat constructor.
Qed.

Lemma ticks_only_move_forward_witness :
  let w := run [SetRoutine sampleRoutine; Start] (boot 0) in
  let steps := [Advance 4000; Frame; Advance 2000; Frame; Frame;
                Advance 15000; Frame; Advance 20000; Frame; Frame] in
  (currentIntervalIndex (engine w)
   <= currentIntervalIndex (engine (run steps w)))%nat
  /\ Sorted lt (currentIntervalIndex (engine w)
                         :: intervalChanges (emittedBy steps w)).
Proof.
  apply (ticks_only_move_forward
           [Advance 4000; Frame; Advance 2000; Frame; Frame;
            Advance 15000; Frame; Advance 20000; Frame; Frame]
           (run [SetRoutine sampleRoutine; Start] (boot 0))).
  - repeat constructor; cbn; lia.
  - intros _. vm_compute. lia.
Defined.

(** *** Resuming and starting afresh *)

(** X13.  Resuming is seamless: on a paused engine whose frozen elapsed
    time lies inside the routine, [start] ends with a state notification of
    a running engine whose [totalElapsed] is the one the engine showed
    while paused, however long the pause lasted; the start instant is
    untouched and the paused duration grows by the length of the pause. *)
Theorem resume_continues_from_paused_elapsed (w : World) :
  isRunning (engine w) = false ->
  isPaused (engine w) = true ->
  valid_routine (routine (engine w)) ->
  0 <= pauseStartTime (engine w) - startTime (engine w) - pausedTime (engine w)
    < 1000 * totalDurationOf (routine (engine w)) ->
  let w' := exec (perform Start) w in
  startTime (engine w') = startTime (engine w)
  /\ pausedTime (engine w')
     = pausedTime (engine w) + (clock w - pauseStartTime (engine w))
  /\ exists st : TimerState.t,
       last (log w') OnComplete = OnTick st
       /\ TimerState.isRunning st = true
       /\ TimerState.isPaused st = false
       /\ TimerState.totalElapsed st
          = TimerState.totalElapsed
              (TimerEngine.computeState (clock w) (engine w)).
Proof.
  intros Hrun Hp Hv He w'. subst w'. cbn [perform].
  assert (Hne : routine (engine w) <> []).
  { apply totalDuration_positive_nonempty. lia. }
  rewrite (start_resume w Hne Hp).
  match goal with |- context [exec TimerEngine.tick ?x] => set (v := x) end.
  assert (Hev : totalElapsedMs v
                = pauseStartTime (engine w) - startTime (engine w)
                  - pausedTime (engine w)).
  { unfold totalElapsedMs. subst v. fields. lia. }
  assert (Hlt : (TimerEngine.deriveIntervalIndex (routine (engine v))
                   (totalElapsedMs v) < length (routine (engine v)))%nat).
  { rewrite Hev. change (routine (engine v)) with (routine (engine w)).
    apply derive_inside; [exact Hv|lia|lia]. }
  rewrite (tick_continue v eq_refl Hlt). subst v. fields.
  split; [reflexivity|]. split; [reflexivity|].
  rewrite last_tickNotes. eexists. split; [reflexivity|].
  unfold TimerEngine.computeState.
  cbn [TimerState.isRunning TimerState.isPaused TimerState.totalElapsed].
  fields. rewrite Hrun, Hp.
  split; [reflexivity|]. split; [reflexivity|].
  f_equal. lia.
Qed.

Lemma resume_continues_witness :
  let w := run [SetRoutine sampleRoutine; Start; Advance 7300; Frame; Pause;
                Advance 90000; Frame] (boot 0) in
  let w' := exec (perform Start) w in
  startTime (engine w') = startTime (engine w)
  /\ pausedTime (engine w')
     = pausedTime (engine w) + (clock w - pauseStartTime (engine w))
  /\ exists st : TimerState.t,
       last (log w') OnComplete = OnTick st
       /\ TimerState.isRunning st = true
       /\ TimerState.isPaused st = false
       /\ TimerState.totalElapsed st
          = TimerState.totalElapsed
              (TimerEngine.computeState (clock w) (engine w)).
Proof.
  apply (resume_continues_from_paused_elapsed
           (run [SetRoutine sampleRoutine; Start; Advance 7300; Frame; Pause;
                 Advance 90000; Frame] (boot 0))).
  - reflexivity.
  - reflexivity.
  - exact sampleRoutine_valid.
  - vm_compute. split; [discriminate|reflexivity].
Defined.

(** X14.  A fresh start always begins at the first interval: on an engine
    that is not paused (idle, completed or already running) whose first
    interval has a positive duration, [start] leaves the engine running
    with zero elapsed time at index 0, wherever the index stood; a move
    made by [nextInterval] on the idle engine is undone, and reported by
    an interval-changed notification carrying 0. *)
Theorem fresh_start_begins_at_first_interval (w : World) :
  isPaused (engine w) = false ->
  0 < durationAt (routine (engine w)) 0 ->
  let w' := exec (perform Start) w in
  isRunning (engine w') = true
  /\ currentIntervalIndex (engine w') = 0%nat
  /\ totalElapsedMs w' = 0
  /\ intervalChanges (emitted Start w)
     = (if (0 =? currentIntervalIndex (engine w))%nat then [] else [0%nat]).
Proof.
  intros Hp Hd w'. subst w'.
  assert (Hlog : log (exec (perform Start) w)
                 = log w ++ tickNotes (clock w)
                                      (set_isRunning true
                                         (set_pausedTime 0
                                            (set_startTime (clock w) (engine w))))
                                      0%nat).
  { cbn [perform]. rewrite (fresh_start_world w Hp Hd). reflexivity. }
  rewrite (emitted_app _ _ _ Hlog), intervalChanges_tickNotes.
  cbn [perform]. rewrite (fresh_start_world w Hp Hd).
  unfold totalElapsedMs. fields.
  repeat split; try reflexivity. lia.
Qed.

Lemma fresh_start_witness :
  let w := run [SetRoutine sampleRoutine; NextInterval; NextInterval] (boot 0) in
  let w' := exec (perform Start) w in
  isRunning (engine w') = true
  /\ currentIntervalIndex (engine w') = 0%nat
  /\ totalElapsedMs w' = 0
  /\ intervalChanges (emitted Start w)
     = (if (0 =? currentIntervalIndex (engine w))%nat then [] else [0%nat]).
Proof.
  apply (fresh_start_begins_at_first_interval
           (run [SetRoutine sampleRoutine; NextInterval; NextInterval] (boot 0))).
  - reflexivity.
  - vm_compute. reflexivity.
Defined.

(** ** Properties of src/utils/format.ts *)

Lemma isDigit_plain (c : ascii) :
  Format.isDigit c = true ->
  notWhiteSpace c = true /\ notColon c = true
  /\ Ascii.eqb c "-" = false /\ Ascii.eqb c "+" = false.
Proof.
  destruct c as [[] [] [] [] [] [] [] []]; cbn; intros H;
    try discriminate H; repeat split; reflexivity.
Qed.

Lemma every_app (p : ascii -> bool) (s t : string) :
  every p (s ++ t)%string = every p s && every p t.
Proof.
  induction s as [|c s IH]; cbn; [reflexivity|].
  rewrite IH, andb_assoc. reflexivity.
Qed.

Lemma every_impl (p q : ascii -> bool) (s : string) :
  (forall c, p c = true -> q c = true) -> every p s = true -> every q s = true.
Proof.
  intros Hpq. induction s as [|c s IH]; cbn; [reflexivity|].
  intros H. apply andb_true_iff in H. destruct H as [Hc Hs].
  rewrite (Hpq c Hc), (IH Hs). reflexivity.
Qed.

Lemma string_append_empty_r (s : string) : (s ++ "")%string = s.
Proof. induction s as [|c s IH]; cbn; [reflexivity|now rewrite IH]. Qed.

Lemma string_append_assoc (s t u : string) :
  ((s ++ t) ++ u)%string = (s ++ (t ++ u))%string.
Proof. induction s as [|c s IH]; cbn; [reflexivity|now rewrite IH]. Qed.

Lemma trimStart_plain (s : string) :
  every notWhiteSpace s = true -> Format.trimStart s = s.
Proof.
  destruct s as [|c s]; cbn; [reflexivity|].
  intros H. apply andb_true_iff in H. destruct H as [Hc _].
  unfold notWhiteSpace in Hc. apply negb_true_iff in Hc. rewrite Hc. reflexivity.
Qed.

Lemma trimEnd_plain (s : string) :
  every notWhiteSpace s = true -> Format.trimEnd s = s.
Proof.
  induction s as [|c s IH]; [reflexivity|].
  cbn [every Format.trimEnd]. intros H. apply andb_true_iff in H.
  destruct H as [Hc Hs]. rewrite (IH Hs).
  unfold notWhiteSpace in Hc. apply negb_true_iff in Hc.
  destruct s; [rewrite Hc|]; reflexivity.
Qed.

Lemma trim_plain (s : string) :
  every notWhiteSpace s = true -> Format.trim s = s.
Proof.
  intros H. unfold Format.trim. rewrite trimStart_plain by exact H.
  apply trimEnd_plain. exact H.
Qed.

Lemma includesColon_app (s t : string) :
  Format.includesColon (s ++ String ":" t) = true.
Proof.
  induction s as [|c s IH]; cbn; [reflexivity|].
  rewrite IH. apply orb_true_r.
Qed.

Lemma includesColon_none (s : string) :
  every notColon s = true -> Format.includesColon s = false.
Proof.
  induction s as [|c s IH]; cbn; [reflexivity|].
  intros H. apply andb_true_iff in H. destruct H as [Hc Hs].
  unfold notColon in Hc. apply negb_true_iff in Hc. rewrite Hc, (IH Hs).
  reflexivity.
Qed.

Lemma splitColon_piece (s t cur : string) :
  every notColon s = true ->
  Format.splitColon (s ++ t) cur = Format.splitColon t (cur ++ s).
Proof.
  revert cur. induction s as [|c s IH]; intros cur; cbn [every String.append].
  - intros _. rewrite string_append_empty_r. reflexivity.
  - intros H. apply andb_true_iff in H. destruct H as [Hc Hs].
    unfold notColon in Hc. apply negb_true_iff in Hc.
    cbn [Format.splitColon]. rewrite Hc, (IH _ Hs), string_append_assoc.
    reflexivity.
Qed.

Lemma splitColon_two (s t : string) :
  every notColon s = true -> every notColon t = true ->
  Format.splitColon (s ++ String ":" t) "" = [s; t].
Proof.
  intros Hs Ht. rewrite (splitColon_piece s _ "" Hs).
  cbn [Format.splitColon String.append]. rewrite Ascii.eqb_refl.
  rewrite <- (string_append_empty_r t) at 1.
  rewrite (splitColon_piece t "" "" Ht). reflexivity.
Qed.

Lemma digits_of_uint (d : Decimal.uint) :
  every Format.isDigit (NilEmpty.string_of_uint d) = true.
Proof. induction d; cbn; auto. Qed.

Lemma readDigits_of_uint (d : Decimal.uint) :
  forall acc : nat,
    Format.readDigits (NilEmpty.string_of_uint d) (Z.of_nat acc)
    = Z.of_nat (Nat.of_uint_acc d acc).
Proof.
  induction d; intros acc;
    cbn [NilEmpty.string_of_uint Format.readDigits Nat.of_uint_acc];
    [reflexivity|..];
    match goal with
    | |- context [Format.isDigit ?c] =>
        replace (Format.isDigit c) with true by reflexivity
    end;
    rewrite <- IHd; f_equal; rewrite Nat.tail_mul_spec; cbn; lia.
Qed.

Lemma to_uint_not_nil (n : nat) : Nat.to_uint n <> Decimal.Nil.
Proof.
  rewrite <- (DecimalNat.Unsigned.of_to n) at 1.
  rewrite DecimalNat.Unsigned.to_of.
  unfold Decimal.unorm. destruct (Decimal.nzhead (Nat.to_uint n)); discriminate.
Qed.

Lemma string_of_uint_not_empty (d : Decimal.uint) :
  d <> Decimal.Nil -> NilEmpty.string_of_uint d <> ""%string.
Proof. destruct d; cbn; congruence. Qed.

(** The decimal string of a non-negative integer: digits only, at least
    one, and reading them gives the integer back. *)
Lemma numberToString_nonneg (n : Z) :
  0 <= n ->
  let s := Format.numberToString n in
  every Format.isDigit s = true
  /\ s <> ""%string
  /\ Format.readDigits s 0 = n.
Proof.
  intros Hn s. subst s. unfold Format.numberToString.
  destruct (Z.ltb_spec n 0); [lia|]. cbn [String.append].
  rewrite Z.abs_eq by exact Hn.
  split; [apply digits_of_uint|]. split.
  - apply string_of_uint_not_empty, to_uint_not_nil.
  - change 0 with (Z.of_nat 0). rewrite readDigits_of_uint.
    change (Nat.of_uint_acc (Nat.to_uint (Z.to_nat n)) 0)
      with (Nat.of_uint (Nat.to_uint (Z.to_nat n))).
    rewrite DecimalNat.Unsigned.of_to. lia.
Qed.

Lemma parseInt_digits (s : string) :
  every Format.isDigit s = true -> s <> ""%string ->
  Format.parseInt s = Some (Format.readDigits s 0).
Proof.
  intros Hd Hne. destruct s as [|c s]; [congruence|].
  pose proof Hd as Hd'. cbn [every] in Hd'. apply andb_true_iff in Hd'.
  destruct Hd' as [Hc _].
  destruct (isDigit_plain c Hc) as (Hw & _ & Hminus & Hplus).
  unfold Format.parseInt.
  rewrite trimStart_plain
    by (cbn [every]; rewrite Hw; cbn;
        apply (every_impl Format.isDigit); [apply isDigit_plain|];
        cbn [every] in Hd; apply andb_true_iff in Hd; apply Hd).
  rewrite Hminus, Hplus, Hc.
  f_equal. lia.
Qed.

Lemma padStart2_digits (s : string) :
  every Format.isDigit s = true -> s <> ""%string ->
  every Format.isDigit (Format.padStart2 s) = true
  /\ Format.padStart2 s <> ""%string
  /\ Format.readDigits (Format.padStart2 s) 0 = Format.readDigits s 0.
Proof.
  intros Hd Hne. unfold Format.padStart2.
  destruct s as [|c [|c' s]]; [congruence| |]; cbn [String.length].
  - split; [exact Hd|]. split; [discriminate|reflexivity].
  - split; [exact Hd|]. split; [discriminate|reflexivity].
Qed.

Lemma formatTime_nonneg (s : Z) :
  0 <= s ->
  Format.formatTime s
  = (Format.numberToString (s / 60) ++
     String ":" (Format.padStart2 (Format.numberToString (s mod 60))))%string.
Proof.
  intros Hs. unfold Format.formatTime.
  destruct (Z.ltb_spec s 0); [lia|]. rewrite Z.abs_eq by exact Hs.
  reflexivity.
Qed.

Lemma parse_minutes_seconds (m k : Z) (sign : string) (mv : Z) :
  0 <= m -> 0 <= k ->
  Format.parseInt (sign ++ Format.numberToString m) = Some mv ->
  every notWhiteSpace sign = true -> every notColon sign = true ->
  Format.parseTimeString
    (sign ++ Format.numberToString m ++
     String ":" (Format.padStart2 (Format.numberToString k)))%string
  = if (mv <? 0) || (k <? 0) || (60 <=? k)
    then Format.Throws "Invalid time values"
    else Format.Returns (mv * 60 + k).
Proof.
  intros Hm Hk Hparse Hsw Hsc.
  destruct (numberToString_nonneg m Hm) as (Dm & Nm & Rm).
  destruct (numberToString_nonneg k Hk) as (Dk & Nk & Rk).
  destruct (padStart2_digits _ Dk Nk) as (Dp & Np & Rp).
  set (ms := Format.numberToString m) in *.
  set (ks := Format.padStart2 (Format.numberToString k)) in *.
  assert (Hplain : forall c, Format.isDigit c = true -> notWhiteSpace c = true)
    by (intros c Hc; apply (isDigit_plain c Hc)).
  assert (Hnocolon : forall c, Format.isDigit c = true -> notColon c = true)
    by (intros c Hc; apply (isDigit_plain c Hc)).
  unfold Format.parseTimeString.
  rewrite <- string_append_assoc.
  rewrite trim_plain.
  2:{ rewrite every_app, every_app, Hsw. cbn [every andb].
      rewrite (every_impl _ _ ms Hplain Dm), (every_impl _ _ ks Hplain Dp).
      reflexivity. }
  rewrite includesColon_app.
  rewrite splitColon_two.
  2:{ rewrite every_app, Hsc. apply (every_impl _ _ ms Hnocolon Dm). }
  2:{ apply (every_impl _ _ ks Hnocolon Dp). }
  rewrite Hparse, (parseInt_digits ks Dp Np), Rp, Rk. reflexivity.
Qed.

(** X15.  Round trip of the two time formats: for a non-negative number of
    seconds (an integer in the range where JavaScript's arithmetic on it is
    exact), [parseTimeString (formatTime s)] returns [s]. *)
Theorem parseTimeString_formatTime (s : Z) :
  0 <= s -> exactRange s ->
  Format.parseTimeString (Format.formatTime s) = Format.Returns s.
Proof.
  intros Hs _.
  pose proof (Z.div_pos s 60 Hs ltac:(lia)) as Hm.
  pose proof (Z.mod_pos_bound s 60 ltac:(lia)) as Hk.
  destruct (numberToString_nonneg (s / 60) Hm) as (Dm & Nm & Rm).
  rewrite formatTime_nonneg by exact Hs.
  change (Format.numberToString (s / 60) ++
          String ":" (Format.padStart2 (Format.numberToString (s mod 60))))%string
    with ("" ++ Format.numberToString (s / 60) ++
          String ":" (Format.padStart2 (Format.numberToString (s mod 60))))%string.
  rewrite (parse_minutes_seconds (s / 60) (s mod 60) "" (s / 60));
    try reflexivity; try lia.
  - destruct (Z.ltb_spec (s / 60) 0); [lia|].
    destruct (Z.ltb_spec (s mod 60) 0); [lia|].
    destruct (Z.leb_spec 60 (s mod 60)); [lia|]. cbn [orb].
    f_equal. pose proof (Z.div_mod s 60 ltac:(lia)). lia.
  - cbn [String.append]. rewrite (parseInt_digits _ Dm Nm), Rm. reflexivity.
Qed.

Lemma parseTimeString_formatTime_witness :
  Format.parseTimeString (Format.formatTime 3661) = Format.Returns 3661.
Proof.
  apply (parseTimeString_formatTime 3661).
  - lia.
  - unfold exactRange. vm_compute. reflexivity.
Defined.

Lemma parseInt_minus_digits (s : string) :
  every Format.isDigit s = true -> s <> ""%string ->
  Format.parseInt (String "-" s) = Some (- Format.readDigits s 0).
Proof.
  intros Hd Hne. destruct s as [|c s]; [congruence|].
  pose proof Hd as Hd'. cbn [every] in Hd'. apply andb_true_iff in Hd'.
  destruct Hd' as [Hc _].
  unfold Format.parseInt. cbn [Format.trimStart].
  replace (Format.isWhiteSpace "-") with false by reflexivity.
  replace (Ascii.eqb "-" "-") with true by reflexivity.
  rewrite Hc. f_equal; lia.
Qed.

Lemma formatTime_negative (s : Z) :
  s < 0 ->
  Format.formatTime s
  = ("-" ++ Format.numberToString (Z.abs s / 60) ++
     String ":" (Format.padStart2 (Format.numberToString (Z.abs s mod 60))))%string.
Proof.
  intros Hs. unfold Format.formatTime.
  destruct (Z.ltb_spec s 0); [reflexivity|lia].
Qed.

(** X16.  [formatTime] of a negative number of seconds is not read back by
    [parseTimeString]: a minute or more below zero it throws "Invalid time
    values"; within the last minute below zero the minutes read as zero and
    the sign is lost, so that the absolute value is returned. *)
Theorem parseTimeString_formatTime_negative (s : Z) :
  s < 0 -> exactRange s ->
  Format.parseTimeString (Format.formatTime s)
  = if s <=? -60 then Format.Throws "Invalid time values"
    else Format.Returns (- s).
Proof.
  intros Hs _.
  assert (Ha : 0 <= Z.abs s) by lia.
  pose proof (Z.div_pos (Z.abs s) 60 Ha ltac:(lia)) as Hm.
  pose proof (Z.mod_pos_bound (Z.abs s) 60 ltac:(lia)) as Hk.
  pose proof (Z.div_mod (Z.abs s) 60 ltac:(lia)) as Hdm.
  destruct (numberToString_nonneg (Z.abs s / 60) Hm) as (Dm & Nm & Rm).
  rewrite formatTime_negative by exact Hs.
  rewrite (parse_minutes_seconds (Z.abs s / 60) (Z.abs s mod 60) "-"
                                 (- (Z.abs s / 60)));
    try reflexivity; try lia.
  - destruct (Z.ltb_spec (Z.abs s mod 60) 0); [lia|].
    destruct (Z.leb_spec 60 (Z.abs s mod 60)); [lia|].
    rewrite orb_false_r.
    destruct (Z.ltb_spec (- (Z.abs s / 60)) 0) as [Hneg|Hzero];
      destruct (Z.leb_spec s (-60)); cbn [orb]; try reflexivity; try lia.
    f_equal. lia.
  - cbn [String.append]. rewrite (parseInt_minus_digits _ Dm Nm), Rm.
    reflexivity.
Qed.

Lemma parseTimeString_formatTime_negative_witness :
  Format.parseTimeString (Format.formatTime (-5))
  = if -5 <=? -60 then Format.Throws "Invalid time values"
    else Format.Returns (- -5).
Proof.
  apply (parseTimeString_formatTime_negative (-5)).
  - lia.
  - unfold exactRange. vm_compute. reflexivity.
Defined.

(** X17.  Whatever string it is given (short enough for the numbers in it
    to be exact), [parseTimeString] never returns a negative number: it
    either throws or returns a number of seconds that is at least 0. *)
Theorem parseTimeString_never_negative (t : string) (n : Z) :
  (String.length t <= 15)%nat ->
  Format.parseTimeString t = Format.Returns n -> 0 <= n.
Proof.
  intros _. unfold Format.parseTimeString.
  destruct (Format.includesColon (Format.trim t)).
  - destruct (Format.splitColon (Format.trim t) "") as [|p1 [|p2 [|p3 ps]]];
      try discriminate.
    destruct (Format.parseInt p1) as [mins|]; [|discriminate].
    destruct (Format.parseInt p2) as [secs|]; [|discriminate].
    destruct (Z.ltb_spec mins 0); [discriminate|].
    destruct (Z.ltb_spec secs 0); [discriminate|].
    destruct (60 <=? secs); [discriminate|].
    cbn [orb]. intros Heq. inversion Heq. lia.
  - destruct (Format.parseInt (Format.trim t)) as [secs|]; [|discriminate].
    destruct (Z.ltb_spec secs 0); [discriminate|].
    intros Heq. inversion Heq. lia.
Qed.

Lemma parseTimeString_never_negative_witness : 0 <= 605.
Proof.
  apply (parseTimeString_never_negative " 10:05 " 605).
  - vm_compute. lia.
  - vm_compute. reflexivity.
Defined.

Lemma trimStart_padding (a t : string) :
  every Format.isWhiteSpace a = true ->
  Format.trimStart (a ++ t) = Format.trimStart t.
Proof.
  induction a as [|c a IH]; cbn [every String.append]; [reflexivity|].
  intros H. apply andb_true_iff in H. destruct H as [Hc Ha].
  cbn [Format.trimStart]. rewrite Hc. apply IH. exact Ha.
Qed.

Lemma trimEnd_white (b : string) :
  every Format.isWhiteSpace b = true -> Format.trimEnd b = ""%string.
Proof.
  induction b as [|c b IH]; cbn [every Format.trimEnd]; [reflexivity|].
  intros H. apply andb_true_iff in H. destruct H as [Hc Hb].
  rewrite (IH Hb), Hc. reflexivity.
Qed.

Lemma trimEnd_padding (t b : string) :
  every Format.isWhiteSpace b = true ->
  Format.trimEnd (t ++ b) = Format.trimEnd t.
Proof.
  intros Hb. induction t as [|c t IH]; cbn [String.append].
  - apply trimEnd_white. exact Hb.
  - cbn [Format.trimEnd]. rewrite IH. reflexivity.
Qed.

Lemma trimStart_suffix (t : string) :
  exists a : string,
    every Format.isWhiteSpace a = true /\ t = (a ++ Format.trimStart t)%string.
Proof.
  induction t as [|c t (a & Ha & Ht)].
  - exists ""%string. split; reflexivity.
  - cbn [Format.trimStart]. destruct (Format.isWhiteSpace c) eqn:Hc.
    + exists (String c a). cbn [every String.append]. rewrite Hc, Ha.
      split; [reflexivity|]. f_equal. exact Ht.
    + exists ""%string. split; reflexivity.
Qed.

Lemma trimStart_append (t b : string) :
  every Format.isWhiteSpace b = true ->
  Format.trimEnd (Format.trimStart (t ++ b)) = Format.trimEnd (Format.trimStart t).
Proof.
  intros Hb. induction t as [|c t IH]; cbn [String.append].
  - cbn [Format.trimStart Format.trimEnd].
    destruct (trimStart_suffix b) as (a & Ha & Hbt).
    assert (Hw : every Format.isWhiteSpace (Format.trimStart b) = true).
    { rewrite Hbt, every_app in Hb. apply andb_true_iff in Hb. apply Hb. }
    apply trimEnd_white. exact Hw.
  - cbn [Format.trimStart]. destruct (Format.isWhiteSpace c); [exact IH|].
    change (String c (t ++ b)) with (String c t ++ b)%string.
    apply trimEnd_padding. exact Hb.
Qed.

(** X18.  White space around a time string is ignored: padding the input
    with tabs, line breaks, spaces or no-break spaces on either side does
    not change what [parseTimeString] returns or throws. *)
Theorem parseTimeString_ignores_padding (a t b : string) :
  every Format.isWhiteSpace a = true ->
  every Format.isWhiteSpace b = true ->
  Format.parseTimeString (a ++ t ++ b) = Format.parseTimeString t.
Proof.
  intros Ha Hb. unfold Format.parseTimeString.
  replace (Format.trim (a ++ t ++ b)) with (Format.trim t); [reflexivity|].
  unfold Format.trim. rewrite (trimStart_padding a _ Ha).
  symmetry. apply trimStart_append. exact Hb.
Qed.

Lemma parseTimeString_ignores_padding_witness :
  Format.parseTimeString ("  " ++ "1:30" ++ " ") = Format.parseTimeString "1:30".
Proof.
  apply (parseTimeString_ignores_padding "  " "1:30" " "); reflexivity.
Defined.

(** X19.  [clamp] keeps a value inside its bounds: when [min <= max] the
    result lies in [[min, max]], is the value itself if that already lies
    there, and clamping twice is clamping once; when the bounds are crossed
    ([max < min]) the result is [min]. *)
Theorem clamp_within_bounds (value min max : Z) :
  (min <= max ->
   min <= Format.clamp value min max <= max
   /\ (min <= value <= max -> Format.clamp value min max = value)
   /\ Format.clamp (Format.clamp value min max) min max
      = Format.clamp value min max)
  /\ (max < min -> Format.clamp value min max = min).
Proof. unfold Format.clamp. split; intros H; repeat split; lia. Qed.

Lemma clamp_within_bounds_witness :
  0 <= Format.clamp 250 0 100 <= 100
  /\ (0 <= 250 <= 100 -> Format.clamp 250 0 100 = 250)
  /\ Format.clamp (Format.clamp 250 0 100) 0 100 = Format.clamp 250 0 100.
Proof. apply (proj1 (clamp_within_bounds 250 0 100)). lia. Defined.

Lemma hexValue_range (c : ascii) :
  Format.isHexDigit c = true -> 0 <= Format.hexValue c <= 15.
Proof.
  destruct c as [[] [] [] [] [] [] [] []]; vm_compute; intros H;
    try discriminate H; split; intros X; discriminate X.
Qed.

Lemma isHexDigit_not_hash (c : ascii) :
  Format.isHexDigit c = true -> Ascii.eqb c "#" = false.
Proof.
  destruct c as [[] [] [] [] [] [] [] []]; cbn; intros H;
    try discriminate H; reflexivity.
Qed.

(** X20.  Every string [isValidHexColor] accepts is converted by
    [hexToRgb], and whenever [hexToRgb] returns a colour (with or without
    the leading [#]) each of its three channels is between 0 and 255. *)
Theorem hexToRgb_channels (hex : string) :
  (Format.isValidHexColor hex = true -> Format.hexToRgb hex <> None)
  /\ (forall rgb : Format.Rgb,
         Format.hexToRgb hex = Some rgb ->
         0 <= Format.r rgb <= 255
         /\ 0 <= Format.g rgb <= 255
         /\ 0 <= Format.b rgb <= 255).
Proof.
  split.
  - unfold Format.isValidHexColor, Format.hexToRgb.
    destruct hex as [|h [|a [|b [|c [|d [|e [|f [|x xs]]]]]]]];
      try discriminate.
    intros H. repeat (apply andb_true_iff in H; destruct H as [H ?]).
    apply Ascii.eqb_eq in H. subst h. cbn [Ascii.eqb Bool.eqb].
    repeat match goal with Hx : Format.isHexDigit _ = true |- _ =>
                             rewrite Hx; clear Hx end.
    discriminate.
  - intros rgb. unfold Format.hexToRgb.
    set (digits := match hex with
                   | String h after => if Ascii.eqb h "#" then after else hex
                   | EmptyString => hex
                   end).
    destruct digits as [|a [|b [|c [|d [|e [|f [|x xs]]]]]]];
      try discriminate.
    destruct (Format.isHexDigit a) eqn:Ha; [|discriminate].
    destruct (Format.isHexDigit b) eqn:Hb; [|discriminate].
    destruct (Format.isHexDigit c) eqn:Hc; [|discriminate].
    destruct (Format.isHexDigit d) eqn:Hd; [|discriminate].
    destruct (Format.isHexDigit e) eqn:He; [|discriminate].
    destruct (Format.isHexDigit f) eqn:Hf; [|discriminate].
    cbn [andb]. intros H.
    assert (Hrgb : rgb = Format.mkRgb
                           (16 * Format.hexValue a + Format.hexValue b)
                           (16 * Format.hexValue c + Format.hexValue d)
                           (16 * Format.hexValue e + Format.hexValue f))
      by congruence.
    rewrite Hrgb. clear H Hrgb. cbn [Format.r Format.g Format.b].
    pose proof (hexValue_range a Ha). pose proof (hexValue_range b Hb).
    pose proof (hexValue_range c Hc). pose proof (hexValue_range d Hd).
    pose proof (hexValue_range e He). pose proof (hexValue_range f Hf).
    lia.
Qed.

Lemma hexToRgb_channels_witness :
  Format.hexToRgb "#A1B2C3" <> None
  /\ (0 <= 161 <= 255 /\ 0 <= 178 <= 255 /\ 0 <= 195 <= 255).
Proof.
  split.
  - apply (proj1 (hexToRgb_channels "#A1B2C3")). reflexivity.
  - apply (proj2 (hexToRgb_channels "#A1B2C3") (Format.mkRgb 161 178 195)).
    reflexivity.
Defined.

(** ** Properties of [validateRoutine] (src/utils/storage.ts) *)

Lemma isIntervalType_known (t : string) :
  Storage.isIntervalType t = true -> exists ty, intervalTypeOf t = Some ty.
Proof.
  unfold Storage.isIntervalType, intervalTypeOf. cbn [existsb].
  destruct (String.eqb t "work"); [eauto|].
  destruct (String.eqb t "rest"); [eauto|].
  destruct (String.eqb t "warmup"); [eauto|].
  destruct (String.eqb t "finisher"); [eauto|].
  destruct (String.eqb t "cooldown"); [eauto|].
  discriminate.
Qed.

Lemma validInterval_asInterval (v : Storage.JsValue) :
  Storage.validInterval v = true ->
  exists i : Interval, asInterval v = Some i /\ wellFormedInterval i.
Proof.
  unfold Storage.validInterval, asInterval. intros H.
  repeat (apply andb_true_iff in H; destruct H as [H ?]).
  destruct (Storage.getProperty v "label") as [| | | |l| |]; try discriminate.
  destruct (Storage.getProperty v "duration") as [| | |[d|p]| | |];
    try discriminate;
    [|match goal with Hd : (p && false) = true |- _ =>
        rewrite andb_false_r in Hd; discriminate Hd end].
  destruct (Storage.getProperty v "type") as [| | | |t| |]; try discriminate.
  match goal with Ht : Storage.isIntervalType t = true |- _ =>
    destruct (isIntervalType_known t Ht) as (ty & Hty) end.
  rewrite Hty. eexists. split; [reflexivity|].
  unfold wellFormedInterval. cbn [duration label color].
  split; [|split].
  - match goal with Hd : ((0 <? d) && true) = true |- _ =>
      rewrite andb_true_r in Hd; apply Z.ltb_lt in Hd; exact Hd end.
  - match goal with Hl : negb (String.eqb (Format.trim l) "") = true |- _ =>
      apply negb_true_iff in Hl; apply String.eqb_neq in Hl; exact Hl end.
  - destruct (Storage.getProperty v "color"); try exact I; try discriminate.
    assumption.
Qed.

Lemma validated_asRoutine (v : Storage.JsValue) :
  Storage.validateRoutine v = true ->
  exists r : Routine, asRoutine v = Some r /\ Forall wellFormedInterval r.
Proof.
  destruct v as [| | | | |items|]; try discriminate.
  cbn [Storage.validateRoutine asRoutine]. intros H.
  induction items as [|x items IH].
  - exists []. split; [reflexivity|constructor].
  - cbn [forallb] in H. apply andb_true_iff in H. destruct H as [Hx Hitems].
    destruct (validInterval_asInterval x Hx) as (i & Hi & Hwf).
    destruct (IH Hitems) as (r & Hr & Hall).
    exists (i :: r). cbn [asIntervals]. rewrite Hi, Hr.
    split; [reflexivity|constructor; assumption].
Qed.

Lemma wellFormed_first_duration (r : Routine) :
  Forall wellFormedInterval r -> r <> [] -> 0 < durationAt r 0.
Proof.
  intros Hall Hne. destruct r as [|i r]; [congruence|].
  inversion Hall as [|? ? (Hd & _) _]; subst. exact Hd.
Qed.

(** X21.  Every value [validateRoutine] accepts is an array that reads as a
    routine with one interval per element, each with a positive integer
    duration, a label that is not blank, one of the five interval types and
    a colour that is absent or of the form [#rrggbb]; such a routine meets
    what the engine asks of its durations. *)
Theorem validateRoutine_accepts_wellFormed (v : Storage.JsValue) :
  Storage.validateRoutine v = true ->
  exists r : Routine,
    asRoutine v = Some r
    /\ Forall wellFormedInterval r
    /\ valid_routine r
    /\ (r <> [] -> 0 < durationAt r 0).
Proof.
  intros H. destruct (validated_asRoutine v H) as (r & Hr & Hall). exists r.
  split; [exact Hr|]. split; [exact Hall|]. split.
  - eapply Forall_impl; [|exact Hall].
    intros i (Hd & _). lia.
  - apply wellFormed_first_duration. exact Hall.
Qed.

Lemma validateRoutine_accepts_witness :
  exists r : Routine,
    asRoutine (Storage.JsArray
                 [Storage.JsObject
                    [("label", Storage.JsString "Work");
                     ("duration", Storage.JsNum (Storage.Integer 30));
                     ("type", Storage.JsString "work");
                     ("color", Storage.JsString "#FF0000")]%string;
                  Storage.JsObject
                    [("label", Storage.JsString "Rest");
                     ("duration", Storage.JsNum (Storage.Integer 15));
                     ("type", Storage.JsString "rest")]%string]) = Some r
    /\ Forall wellFormedInterval r
    /\ valid_routine r
    /\ (r <> [] -> 0 < durationAt r 0).
Proof.
  apply validateRoutine_accepts_wellFormed. reflexivity.
Defined.

Lemma computeState_started (now : Z) (r : Routine) (h : option positive) :
  0 <= durationAt r 0 ->
  TimerEngine.computeState now (mkEngine now 0 0 h r 0 true false)
  = TimerState.mk true false 0 (durationAt r 0) 0 (totalDurationOf r).
Proof.
  intros Hd. unfold TimerEngine.computeState.
  rewrite currentInterval_duration. fields.
  rewrite sumDurationsMs_slice0, cumulative_zero, sumDurationsMs_total.
  replace (now - now - 0) with 0 by lia.
  replace (Z.max 0 (0 - 0)) with 0 by lia.
  replace (Z.max 0 (1000 * durationAt r 0 - 0)) with (1000 * durationAt r 0)
    by lia.
  rewrite ceil1000_exact, floor1000_exact. reflexivity.
Qed.

(** X22.  A routine that passed [validateRoutine], is not empty and has a
    total duration below 2^53 ms can be run: loaded into an engine in any
    state and started, it leaves the
    engine running in its first interval, and the last state notification
    shows that interval's full duration (at least one second) as time
    remaining, zero elapsed, and the sum of the durations as total. *)
Theorem validated_routine_starts (v : Storage.JsValue) (r : Routine) (w : World) :
  Storage.validateRoutine v = true ->
  asRoutine v = Some r ->
  r <> [] ->
  exactDurations r ->
  let w' := run [SetRoutine r; Start] w in
  isRunning (engine w') = true
  /\ currentIntervalIndex (engine w') = 0%nat
  /\ last (log w') OnComplete
     = OnTick (TimerState.mk true false 0 (durationAt r 0) 0 (totalDurationOf r))
  /\ 1 <= durationAt r 0.
Proof.
  intros Hok Hr Hne _ w'.
  destruct (validated_asRoutine v Hok) as (r' & Hr' & Hall).
  assert (r' = r) by congruence. subst r'.
  pose proof (wellFormed_first_duration r Hall Hne) as Hd.
  subst w'. rewrite !run_cons. cbn [run fold_left perform].
  rewrite setRoutine_world.
  rewrite fresh_start_world by (first [reflexivity | exact Hd]).
  fields. rewrite last_tickNotes. unfold loadedEngine. fields.
  split; [reflexivity|]. split; [reflexivity|]. split; [|lia].
  f_equal. apply (computeState_started (clock w) r None). lia.
Qed.

Lemma validated_routine_starts_witness :
  let v := Storage.JsArray
             [Storage.JsObject
                [("label", Storage.JsString "Work");
                 ("duration", Storage.JsNum (Storage.Integer 30));
                 ("type", Storage.JsString "work")]%string] in
  let r := [mkInterval "Work" 30 work None] in
  let w' := run [SetRoutine r; Start] (boot 0) in
  isRunning (engine w') = true
  /\ currentIntervalIndex (engine w') = 0%nat
  /\ last (log w') OnComplete
     = OnTick (TimerState.mk true false 0 (durationAt r 0) 0 (totalDurationOf r))
  /\ 1 <= durationAt r 0.
Proof.
  apply (validated_routine_starts
           (Storage.JsArray
              [Storage.JsObject
                 [("label", Storage.JsString "Work");
                  ("duration", Storage.JsNum (Storage.Integer 30));
                  ("type", Storage.JsString "work")]%string])
           [mkInterval "Work" 30 work None] (boot 0)).
  - reflexivity.
  - reflexivity.
  - discriminate.
  - vm_compute. reflexivity.
Defined.

(** ** Navigation on a paused engine *)



